(** * Mishu-Theme, [samples/sample.py]: a shallow embedding and its properties

    The sample module defines a [User] dataclass whose constructor validates
    the email with a regular expression, a [logged] decorator, an abstract
    [BaseService] with an in-memory cache, its [UserService] subclass, a
    [debounce] decorator factory and a [DatabaseConnection] context manager.

    Python values are embedded as follows: [int] is [Z]; [str] is the list
    of its Unicode code points; [float] is the kernel's binary64 [float];
    a [dict] is an insertion-ordered association list; methods that print,
    mutate [self] or raise are computations in a state-and-exception monad
    whose state survives a raise, as it does in Python. *)

From Stdlib Require Import String Ascii Decimal DecimalString.
From Stdlib Require Import ZArith NArith List Bool Lia Floats.
Import ListNotations.

Set Implicit Arguments.
Local Open Scope list_scope.

(** ** Python strings and integers *)

Module Py.

(** A character is a Unicode code point, a [str] a sequence of them. *)
Definition char := N.
Definition str := list char.

(** A string literal of the source. *)
Definition lit (s : string) : str := map N_of_ascii (list_ascii_of_string s).

(** [a == b] on strings. *)
Fixpoint str_eqb (a b : str) : bool :=
  match a, b with
  | [], [] => true
  | x :: a', y :: b' => N.eqb x y && str_eqb a' b'
  | _, _ => false
  end.

(** [str(z)] for an [int]: decimal digits, with a minus sign when negative. *)
Definition str_of_int (z : Z) : str := lit (NilZero.string_of_int (Z.to_int z)).

(** [str.zfill(width)] on the decimal rendering of a natural number. *)
Definition zfill (width : nat) (n : N) : str :=
  let s := str_of_int (Z.of_N n) in
  repeat 48%N (width - length s) ++ s.

(** The characters the [re] module's [\s] matches in a [str] pattern
    (CPython's [Py_UNICODE_ISSPACE]). *)
Definition isspace (c : char) : bool :=
  ((9 <=? c) && (c <=? 13) || (28 <=? c) && (c <=? 32)
   || (c =? 133) || (c =? 160) || (c =? 5760)
   || (8192 <=? c) && (c <=? 8202)
   || (c =? 8232) || (c =? 8233) || (c =? 8239) || (c =? 8287)
   || (c =? 12288))%N.

End Py.

Import Py.

(** ** The fragment of [re] that the email pattern uses *)

Module Re.

(** An item of a bracketed set: the class [\s] or a literal character. *)
Inductive item :=
| Space
| Chr (c : char).

Definition item_has (x : char) (i : item) : bool :=
  match i with
  | Space => isspace x
  | Chr c => N.eqb x c
  end.

Inductive regex :=
| Bol                          (* ^ *)
| Eol                          (* $ *)
| Lit (c : char)               (* a literal or escaped character *)
| NotIn (items : list item)    (* [^...] *)
| Plus (r : regex)             (* r+ *)
| Cat (r1 r2 : regex).         (* r1 r2 *)

(** A position in the subject: how many characters are behind it and the
    characters still ahead. *)
Definition pos := (nat * str)%type.

Definition advance (p : pos) (rest : str) : pos := (S (fst p), rest).

(** One or more rounds of [step], longest first (greedy), every end
    position a backtracking matcher would try. *)
Fixpoint rounds (step : pos -> list pos) (fuel : nat) (p : pos) : list pos :=
  match fuel with
  | O => []
  | S fuel' => flat_map (fun q => rounds step fuel' q ++ [q]) (step p)
  end.

(** [run r p]: the positions at which a match of [r] that starts at [p] can
    end, in the order backtracking finds them. Without [re.MULTILINE], [^]
    matches at the start of the string only and [$] at the end of the string
    or just before a newline that ends it. *)
Fixpoint run (r : regex) (p : pos) : list pos :=
  match r with
  | Bol => if Nat.eqb (fst p) 0 then [p] else []
  | Eol =>
      match snd p with
      | [] => [p]
      | [c] => if N.eqb c 10 then [p] else []
      | _ => []
      end
  | Lit c =>
      match snd p with
      | x :: rest => if N.eqb x c then [advance p rest] else []
      | [] => []
      end
  | NotIn items =>
      match snd p with
      | x :: rest => if existsb (item_has x) items then [] else [advance p rest]
      | [] => []
      end
  | Plus r' => rounds (run r') (S (length (snd p))) p
  | Cat r1 r2 => flat_map (run r2) (run r1 p)
  end.

(** [re.match(pattern, s)]: the first match anchored at the start, or
    [None]. *)
Definition re_match (r : regex) (s : str) : option pos := hd_error (run r (0, s)).

End Re.

(** [bool(x)] for an [Optional] of objects that define neither [__bool__]
    nor [__len__]: only [None] is falsy. *)
Definition truthy {A : Type} (o : option A) : bool :=
  match o with
  | Some _ => true
  | None => false
  end.

(** ** Exceptions and the monad of effectful code *)

(** The exceptions that can reach this code. [CancelledError] derives from
    [BaseException] only, the other three from [Exception]. *)
Inductive exn :=
| ValueError (msg : str)
| TimeoutError
| OtherException (msg : str)
| CancelledError.

(** [isinstance(e, Exception)]. *)
Definition is_Exception (e : exn) : bool :=
  match e with
  | CancelledError => false
  | _ => true
  end.

(** [str(e)]. *)
Definition exn_str (e : exn) : str :=
  match e with
  | ValueError msg => msg
  | OtherException msg => msg
  | TimeoutError => []
  | CancelledError => []
  end.

Inductive result (A : Type) :=
| Ok (a : A)
| Raised (e : exn).

Arguments Ok {A} a.
Arguments Raised {A} e.

(** A computation over a state [S]: it returns or raises, and in both cases
    leaves a state behind. *)
Definition M (S A : Type) := S -> result A * S.

Definition ret {S A : Type} (a : A) : M S A := fun s => (Ok a, s).

Definition bind {S A B : Type} (c : M S A) (k : A -> M S B) : M S B :=
  fun s =>
    match c s with
    | (Ok a, s') => k a s'
    | (Raised e, s') => (Raised e, s')
    end.

Definition raise {S A : Type} (e : exn) : M S A := fun s => (Raised e, s).

(** [try: c  except ...: handler]; a handler re-raises what its clauses do
    not catch. *)
Definition try_except {S A : Type} (c : M S A) (handler : exn -> M S A) : M S A :=
  fun s =>
    match c s with
    | (Ok a, s') => (Ok a, s')
    | (Raised e, s') => handler e s'
    end.

Declare Scope py_scope.
Delimit Scope py_scope with py.
Notation "x <- c ;; k" := (bind c (fun x => k))
  (at level 61, c at next level, right associativity) : py_scope.
Notation "c ;; k" := (bind c (fun _ => k))
  (at level 61, right associativity) : py_scope.
Local Open Scope py_scope.

(** What an [await] on the event loop can do to the awaiting coroutine. *)
Inductive outcome :=
| Completes
| Raises (e : exn).

Definition await {S : Type} (o : outcome) : M S unit :=
  match o with
  | Completes => ret tt
  | Raises e => raise e
  end.

(** ** Insertion-ordered dictionaries *)

Module Dict.
Section Dict.

Variables K V : Type.
Variable eqb : K -> K -> bool.

Definition t := list (K * V).

Definition empty : t := [].

(** [d.get(k)] *)
Fixpoint get (d : t) (k : K) : option V :=
  match d with
  | [] => None
  | (k', v) :: d' => if eqb k k' then Some v else get d' k
  end.

(** [d[k] = v]: an existing key keeps its place, a new key goes last. *)
Fixpoint set (d : t) (k : K) (v : V) : t :=
  match d with
  | [] => [(k, v)]
  | (k', v') :: d' => if eqb k k' then (k', v) :: d' else (k', v') :: set d' k v
  end.

(** [len(d)] *)
Definition len (d : t) : Z := Z.of_nat (length d).

(** [d.keys()] and [d.values()], in insertion order. *)
Definition keys (d : t) : list K := map fst d.
Definition values (d : t) : list V := map snd d.

End Dict.
End Dict.

(** [[elt(x) for x in xs if cond(x)]]: the loop that appends to a result
    list. *)
Definition comprehension {A B : Type} (elt : A -> B) (xs : list A) (cond : A -> bool)
  : list B :=
  fold_left (fun acc x => if cond x then acc ++ [elt x] else acc) xs [].

(** ** [UserRole], [datetime] and [User] *)

Inductive UserRole :=
| ADMIN
| USER
| GUEST.

(** [role.name] *)
Definition UserRole_name (r : UserRole) : str :=
  match r with
  | ADMIN => lit "ADMIN"
  | USER => lit "USER"
  | GUEST => lit "GUEST"
  end.

(** [r1 == r2] on enum members. *)
Definition UserRole_eqb (r1 r2 : UserRole) : bool :=
  match r1, r2 with
  | ADMIN, ADMIN | USER, USER | GUEST, GUEST => true
  | _, _ => false
  end.

(** A naive [datetime], as [datetime.now()] returns it. *)
Record datetime := mkDatetime {
  year : N;
  month : N;
  day : N;
  hour : N;
  minute : N;
  second : N;
  microsecond : N
}.

(** [dt.isoformat()]: [YYYY-MM-DDTHH:MM:SS], then [.ffffff] unless the
    microseconds are zero. *)
Definition isoformat (dt : datetime) : str :=
  zfill 4 (year dt) ++ lit "-" ++ zfill 2 (month dt) ++ lit "-" ++ zfill 2 (day dt)
  ++ lit "T" ++ zfill 2 (hour dt) ++ lit ":" ++ zfill 2 (minute dt)
  ++ lit ":" ++ zfill 2 (second dt)
  ++ (if N.eqb (microsecond dt) 0 then [] else lit "." ++ zfill 6 (microsecond dt)).

(** The values of type [Any] that occur in the dictionaries of this module. *)
Inductive any :=
| ANone
| AInt (z : Z)
| AStr (s : str).

Record User := mkUser {
  id : Z;
  name : str;
  email : str;
  role : UserRole;
  metadata : Dict.t str any;
  created_at : datetime
}.

(** [[^\s@]] *)
Definition not_space_or_at : Re.regex := Re.NotIn [Re.Space; Re.Chr 64%N].

(** [r'^[^\s@]+@[^\s@]+\.[^\s@]+$'] *)
Definition pattern : Re.regex :=
  Re.Cat Re.Bol
    (Re.Cat (Re.Plus not_space_or_at)
       (Re.Cat (Re.Lit 64%N)
          (Re.Cat (Re.Plus not_space_or_at)
             (Re.Cat (Re.Lit 46%N)
                (Re.Cat (Re.Plus not_space_or_at) Re.Eol))))).

Definition _is_valid_email (email : str) : bool :=
  truthy (Re.re_match pattern email).

Definition __post_init__ (self : User) : result unit :=
  if negb (_is_valid_email (email self))
  then Raised (ValueError (lit "Invalid email: " ++ email self))
  else Ok tt.

Definition default {A : Type} (d : A) (o : option A) : A :=
  match o with
  | Some a => a
  | None => d
  end.

(** [User(id, name, email, role, metadata, created_at)]: the generated
    [__init__] fills the fields, with the defaults for the arguments left
    out ([now] is what [datetime.now()] reads), then calls [__post_init__]. *)
Definition User__init__ (now : datetime) (id : Z) (name email : str)
    (role : option UserRole) (metadata : option (Dict.t str any))
    (created_at : option datetime) : result User :=
  let self := {| id := id; name := name; email := email;
                 role := default USER role;
                 metadata := default (Dict.empty str any) metadata;
                 created_at := default now created_at |} in
  match __post_init__ self with
  | Ok _ => Ok self
  | Raised e => Raised e
  end.

Definition to_dict (self : User) : Dict.t str any :=
  [ (lit "id", AInt (id self));
    (lit "name", AStr (name self));
    (lit "email", AStr (email self));
    (lit "role", AStr (UserRole_name (role self)));
    (lit "created_at", AStr (isoformat (created_at self))) ].

(** ** Objects, the console and the world *)

(** A [User] instance: the address that identifies the object and its
    fields. The code never assigns to a field of a [User] after
    construction. *)
Record UserObj := mkObj {
  addr : nat;
  fields : User
}.

(** What a logging line shows of a Python value. *)
Inductive shown :=
| SNone
| SInt (z : Z)
| SUser (u : UserObj).

(** A line printed to the console: a text, or one of the three lines of
    [logged], which show the function's name with its arguments (for a
    method, those after [self]), its result, or its exception's message. *)
Inductive line :=
| Text (s : str)
| Calling (func : string) (args : shown)
| Returned (func : string) (value : shown)
| RaisedLine (func : string) (message : str).

(** A state that has a console. *)
Class Console (S : Type) := { write : line -> S -> S }.

#[global] Instance Console_lines : Console (list line) :=
  {| write := fun l out => out ++ [l] |}.

Definition print {S : Type} `{Console S} (l : line) : M S unit :=
  fun s => (Ok tt, write l s).

Class Repr (A : Type) := { repr : A -> shown }.

#[global] Instance Repr_int : Repr Z := {| repr := SInt |}.
#[global] Instance Repr_user : Repr UserObj := {| repr := SUser |}.
#[global] Instance Repr_option {A : Type} `{Repr A} : Repr (option A) :=
  {| repr := fun o => match o with
                      | Some a => repr a
                      | None => SNone
                      end |}.

Record BaseService (T : Type) := mkBase {
  endpoint : str;
  _cache : Dict.t Z T
}.

Record UserService := mkService {
  super : BaseService UserObj;
  _session : option unit
}.

(** The state the methods run in: the service object, the console, and the
    number of [User] objects constructed so far (the next free address). *)
Record World := mkWorld {
  service : UserService;
  stdout : list line;
  objects : nat
}.

#[global] Instance Console_World : Console World :=
  {| write := fun l w => {| service := service w; stdout := stdout w ++ [l];
                            objects := objects w |} |}.

(** ** The [logged] decorator *)

Definition logged {S A R : Type} `{Console S} `{Repr A} `{Repr R}
    (__name__ : string) (func : A -> M S R) : A -> M S R :=
  fun args =>
    print (Calling __name__ (repr args)) ;;
    try_except
      (result <- func args ;;
       print (Returned __name__ (repr result)) ;;
       ret result)
      (fun e =>
         if is_Exception e
         then print (RaisedLine __name__ (exn_str e)) ;; raise e
         else raise e).

(** ** [BaseService] and [UserService] *)

Definition BaseService__init__ (T : Type) (endpoint : str) : BaseService T :=
  {| endpoint := endpoint; _cache := Dict.empty Z T |}.

Definition BaseService_get_cache {T : Type} (self : BaseService T) (id : Z) : option T :=
  Dict.get Z.eqb (_cache self) id.

Definition BaseService_set_cache {T : Type} (self : BaseService T) (id : Z) (item : T)
  : BaseService T :=
  {| endpoint := endpoint self; _cache := Dict.set Z.eqb (_cache self) id item |}.

Definition UserService__init__ : UserService :=
  {| super := BaseService__init__ UserObj (lit "/users"); _session := None |}.

(** The world in which a freshly constructed service starts. *)
Definition fresh : World :=
  {| service := UserService__init__; stdout := []; objects := 0 |}.

Definition cache (w : World) : Dict.t Z UserObj := _cache (super (service w)).

(** [self._get_cache(id)] and [self._set_cache(id, item)] on a
    [UserService]. *)
Definition _get_cache (id : Z) : M World (option UserObj) :=
  fun w => (Ok (BaseService_get_cache (super (service w)) id), w).

Definition _set_cache (id : Z) (item : UserObj) : M World unit :=
  fun w =>
    (Ok tt,
     {| service := {| super := BaseService_set_cache (super (service w)) id item;
                      _session := _session (service w) |};
        stdout := stdout w;
        objects := objects w |}).

(** [len(self._cache)] *)
Definition cache_len : M World Z :=
  fun w => (Ok (Dict.len (cache w)), w).

(** The expression [User(...)] inside a method: a new object is allocated,
    and it is the value of the expression unless [__post_init__] raises. *)
Definition new_User (now : datetime) (id : Z) (name email : str)
    (role : option UserRole) : M World UserObj :=
  fun w =>
    let w' := {| service := service w; stdout := stdout w; objects := S (objects w) |} in
    match User__init__ now id name email role None None with
    | Ok u => (Ok {| addr := objects w; fields := u |}, w')
    | Raised e => (Raised e, w')
    end.

(** What one call of [fetch_by_id] reads from outside: the clock, and what
    becomes of the awaited [asyncio.sleep(0.1)] under
    [asyncio.timeout(TIMEOUT_SECONDS)]. *)
Record Env := mkEnv {
  now : datetime;
  sleep : outcome
}.

(** The body of [fetch_by_id], before [@logged] wraps it. *)
Definition fetch_by_id__wrapped__ (env : Env) (id : Z) : M World (option UserObj) :=
  cached <- _get_cache id ;;
  if truthy cached then ret cached
  else
    try_except
      (await (sleep env) ;;
       user <- new_User (now env) id
                 (lit "User " ++ str_of_int id)
                 (lit "user" ++ str_of_int id ++ lit "@example.com")
                 (Some USER) ;;
       _set_cache id user ;;
       ret (Some user))
      (fun e =>
         match e with
         | TimeoutError =>
             print (Text (lit "Timeout fetching user " ++ str_of_int id)) ;;
             ret None
         | _ =>
             if is_Exception e
             then print (Text (lit "Error fetching user " ++ str_of_int id
                                 ++ lit ": " ++ exn_str e)) ;;
                  ret None
             else raise e
         end).

Definition fetch_by_id (env : Env) : Z -> M World (option UserObj) :=
  logged "fetch_by_id" (fetch_by_id__wrapped__ env).

Definition create_user (now : datetime) (name email : str) (role : option UserRole)
  : M World UserObj :=
  n <- cache_len ;;
  let new_id := (n + 1)%Z in
  user <- new_User now new_id name email (Some (default USER role)) ;;
  _set_cache new_id user ;;
  ret user.

Definition get_users_by_role (role0 : UserRole) : M World (list UserObj) :=
  fun w =>
    (Ok (comprehension (fun user => user) (Dict.values (cache w))
           (fun user => UserRole_eqb (role (fields user)) role0)),
     w).

(** ** The [debounce] decorator factory *)

Section Debounce.

(** The wrapped function takes arguments [A], returns an [R] or raises,
    and acts on a state [W]. *)
Variables W A R : Type.
Variable delay : float.
Variable func : A -> M W R.

(** The cell [last_call] of the closure, next to the state of [func]. *)
Record Debounced := mkDebounced {
  last_call : float;
  inner : W
}.

(** [decorator(func)] starts the closure with [last_call = 0]. *)
Definition decorator (w : W) : Debounced :=
  {| last_call := 0%float; inner := w |}.

(** One call of [wrapper]; [current_time] is what [time.time()] reads. *)
Definition wrapper (current_time : float) (args : A) : M Debounced (option R) :=
  fun c =>
    if PrimFloat.leb delay (PrimFloat.sub current_time (last_call c))
    then
      match func args (inner c) with
      | (Ok r, w') => (Ok (Some r), {| last_call := current_time; inner := w' |})
      | (Raised e, w') => (Raised e, {| last_call := current_time; inner := w' |})
      end
    else (Ok None, c).

(** A sequence of calls, each with its clock reading; an exception of
    [func] ends one call, not the sequence. *)
Fixpoint calls (cs : list (float * A)) (c : Debounced)
  : list (result (option R)) * Debounced :=
  match cs with
  | [] => ([], c)
  | (t, args) :: cs' =>
      let (r, c') := wrapper t args c in
      let (rs, c'') := calls cs' c' in
      (r :: rs, c'')
  end.

End Debounce.

(** ** [DatabaseConnection] *)

Record DatabaseConnection := mkConnection {
  connection_string : str;
  _connection : option unit
}.

Definition DatabaseConnection__init__ (connection_string : str) : DatabaseConnection :=
  {| connection_string := connection_string; _connection := None |}.

Definition __aenter__ {S : Type} `{Console S} (self : DatabaseConnection)
    (sleep : outcome) : M S DatabaseConnection :=
  print (Text (lit "Connecting to " ++ connection_string self)) ;;
  await sleep ;;
  ret self.

(** The three arguments carry no annotation in the source: any values. *)
Definition __aexit__ {S T V B : Type} `{Console S} (self : DatabaseConnection)
    (exc_type : T) (exc_val : V) (exc_tb : B) : M S bool :=
  print (Text (lit "Closing database connection")) ;;
  ret false.

(** [async with cm as target: body]: Python calls [__aexit__] with three
    [None] when the body returns, and with the exception's type, value and
    traceback when it raises; the exception is dropped only when [__aexit__]
    then returns a true value. The result is [None] when an exception was
    dropped. *)
Definition async_with {S A : Type} `{Console S} (cm : DatabaseConnection)
    (sleep : outcome) (body : DatabaseConnection -> M S A) : M S (option A) :=
  target <- __aenter__ cm sleep ;;
  fun s =>
    match body target s with
    | (Ok a, s') =>
        (__aexit__ cm (@None unit) (@None exn) (@None unit) ;; ret (Some a)) s'
    | (Raised e, s') =>
        (suppress <- __aexit__ cm (Some tt) (Some e) (Some tt) ;;
         if (suppress : bool) then ret None else raise e) s'
    end.

(** [user.id] of an object. *)
Definition uid (u : UserObj) : Z := id (fields u).

(** The world after [self._set_cache(i, u)] in a world with one more
    object. *)
Definition stored (w : World) (i : Z) (u : UserObj) : World :=
  {| service := {| super := BaseService_set_cache (super (service w)) i u;
                   _session := _session (service w) |};
     stdout := stdout w;
     objects := S (objects w) |}.

(** ** Sequences of operations *)

(** The operations a caller can perform on a [UserService]. *)
Inductive op :=
| GetCache (id : Z)
| SetCache (id : Z) (item : UserObj)
| FetchById (env : Env) (id : Z)
| CreateUser (now : datetime) (name email : str) (role : option UserRole)
| GetUsersByRole (role : UserRole).

(** The world after one operation, whether it returned or raised. *)
Definition step (w : World) (o : op) : World :=
  match o with
  | GetCache id => snd (_get_cache id w)
  | SetCache id item => snd (_set_cache id item w)
  | FetchById env id => snd (fetch_by_id env id w)
  | CreateUser now name email role => snd (create_user now name email role w)
  | GetUsersByRole role => snd (get_users_by_role role w)
  end.

Definition steps (w : World) (ops : list op) : World := fold_left step ops w.

(** The arguments of one [create_user] call, with the clock it reads. *)
Record request := mkRequest {
  req_now : datetime;
  req_name : str;
  req_email : str;
  req_role : option UserRole
}.

(** [create_user] called once per request, in order; the users that were
    created, oldest first, and the world at the end. *)
Fixpoint create_users (reqs : list request) (w : World) : list UserObj * World :=
  match reqs with
  | [] => ([], w)
  | r :: reqs' =>
      match create_user (req_now r) (req_name r) (req_email r) (req_role r) w with
      | (Ok u, w') => let (us, w'') := create_users reqs' w' in (u :: us, w'')
      | (Raised _, w') => create_users reqs' w'
      end
  end.

(** In a run of a debounced function, the clock reading of the latest call
    that was let through to the wrapped function ([acc] when there is
    none): a call is suppressed exactly when the wrapper returns [None]. *)
Fixpoint last_executed {A R : Type} (cs : list (float * A))
    (rs : list (result (option R))) (acc : option float) : option float :=
  match cs, rs with
  | (t, _) :: cs', Ok None :: rs' => last_executed cs' rs' acc
  | (t, _) :: cs', _ :: rs' => last_executed cs' rs' (Some t)
  | _, _ => acc
  end.

(** ** The email pattern in the words of the specification *)

(** A character that is neither white space nor [@]. *)
Definition plain (c : char) : Prop := isspace c = false /\ c <> 64%N.

(** One or more such characters. *)
Definition part (w : str) : Prop := w <> [] /\ Forall plain w.

(** One or more plain characters, an [@], one or more plain characters, a
    dot, one or more plain characters. *)
Definition well_formed (s : str) : Prop :=
  exists l d t : str,
    part l /\ part d /\ part t /\ s = l ++ [64%N] ++ d ++ [46%N] ++ t.

(** ** The limit of the conversion of integers to text *)

(** CPython converts an [int] to decimal text, in [str], [repr] and the
    fields of an f-string, only when the text has at most
    [sys.get_int_max_str_digits()] digits, 4300 unless reconfigured, the
    sign not counted; for a longer one the conversion raises [ValueError].
    [str_of_int] is the conversion of the integers that render. *)
Definition int_max_str_digits : Z := 4300.

Definition renders (z : Z) : Prop :=
  (Z.of_nat (length (str_of_int (Z.abs z))) <= int_max_str_digits)%Z.

(** ** Runs of a debounced function, seen from the wrapped function *)

(** The arguments of the calls of a run that the comparison
    [current_time - last_call >= delay] lets through, oldest first, read
    off the clock alone: [last] is the reading of the latest call let
    through before the run, or the initial 0. *)
Fixpoint let_through {A : Type} (delay : float) (cs : list (float * A))
    (last : float) : list A :=
  match cs with
  | [] => []
  | (t, args) :: cs' =>
      if PrimFloat.leb delay (PrimFloat.sub t last)
      then args :: let_through delay cs' t
      else let_through delay cs' last
  end.

(** The wrapped function called on each of the arguments in turn, without
    any wrapper: the state it leaves. *)
Definition run_func {W A R : Type} (func : A -> M W R) (argss : list A) (w : W) : W :=
  fold_left (fun w args => snd (func args w)) argss w.

(** ** [main] *)

(** [{key(x): val(x) for x in xs}]: the loop that assigns into a result
    dictionary. *)
Definition dict_comprehension {A K V : Type} (eqb : K -> K -> bool)
    (key : A -> K) (val : A -> V) (xs : list A) : Dict.t K V :=
  fold_left (fun d x => Dict.set eqb d (key x) (val x)) xs (Dict.empty K V).

(** [sep.join(xs)] *)
Fixpoint join (sep : str) (xs : list str) : str :=
  match xs with
  | [] => []
  | [x] => x
  | x :: xs' => x ++ sep ++ join sep xs'
  end.

Section Main.

(** [repr] on a [str], which the f-strings of [main] apply to the strings
    inside a list or a dictionary: a function of the string. *)
Variable repr_str : str -> str.

Definition repr_any (a : any) : str :=
  match a with
  | ANone => lit "None"
  | AInt z => str_of_int z
  | AStr s => repr_str s
  end.

(** [repr] of a list of strings and of a dictionary. *)
Definition repr_list (xs : list str) : str :=
  lit "[" ++ join (lit ", ") (map repr_str xs) ++ lit "]".

Definition repr_dict {K V : Type} (repr_key : K -> str) (repr_val : V -> str)
    (d : Dict.t K V) : str :=
  lit "{" ++ join (lit ", ")
               (map (fun kv => repr_key (fst kv) ++ lit ": " ++ repr_val (snd kv)) d)
          ++ lit "}".

(** [service = UserService()] *)
Definition new_service : M World unit :=
  fun w => (Ok tt, {| service := UserService__init__; stdout := stdout w;
                      objects := objects w |}).

(** [main()]; [c1], [c2] and [c3] are what the clock reads when the three
    users are constructed, [env] is what the call of [fetch_by_id] reads. *)
Definition main (c1 c2 c3 : datetime) (env : Env) : M World unit :=
  new_service ;;
  u1 <- create_user c1 (lit "Alice") (lit "alice@example.com") (Some ADMIN) ;;
  u2 <- create_user c2 (lit "Bob") (lit "bob@example.com") None ;;
  u3 <- create_user c3 (lit "Charlie") (lit "charlie@example.com") (Some GUEST) ;;
  let users := [u1; u2; u3] in
  user <- fetch_by_id env 1 ;;
  match user with
  | Some user =>
      print (Text (lit "Fetched: "
                     ++ repr_dict repr_str repr_any (to_dict (fields user))))
  | None => ret tt
  end ;;
  let admin_names :=
    comprehension (fun u => name (fields u)) users
      (fun u => UserRole_eqb (role (fields u)) ADMIN) in
  print (Text (lit "Admins: " ++ repr_list admin_names)) ;;
  let user_map :=
    dict_comprehension Z.eqb uid (fun u => name (fields u)) users in
  print (Text (lit "User map: " ++ repr_dict str_of_int repr_str user_map)) ;;
  let total := Z.of_nat (length users) in
  print (Text (lit "Total users: " ++ str_of_int total ++ lit " ("
                 ++ (if (2 <? total)%Z then lit "many" else lit "few") ++ lit ")")).

End Main.

(** * Properties *)

Unset Implicit Arguments.

(** ** The matcher on the email pattern *)

Section Matcher.

Import Re.

Lemma plain_iff (c : char) :
  existsb (item_has c) [Space; Chr 64%N] = false <-> plain c.
Proof.
  unfold plain; simpl.
  rewrite orb_false_r, orb_false_iff, N.eqb_neq. tauto.
Qed.

Lemma truthy_hd_error {A : Type} (l : list A) :
  truthy (hd_error l) = true <-> exists q, In q l.
Proof.
  destruct l as [|a l]; simpl; split; intros H; try discriminate.
  - destruct H as [_ []].
  - now exists a; left.
  - reflexivity.
Qed.

Lemma in_run_cat (a b : regex) (p q : pos) :
  In q (run (Cat a b) p) <-> exists m, In m (run a p) /\ In q (run b m).
Proof. simpl. apply in_flat_map. Qed.

Lemma in_run_bol (p q : pos) :
  In q (run Bol p) <-> q = p /\ fst p = 0.
Proof.
  simpl. destruct (Nat.eqb_spec (fst p) 0) as [E|E]; simpl.
  - intuition congruence.
  - intuition.
Qed.

Lemma in_run_eol (p q : pos) :
  In q (run Eol p) <-> q = p /\ (snd p = [] \/ snd p = [10%N]).
Proof.
  simpl. destruct (snd p) as [|c [|c' r]]; simpl.
  - intuition.
  - destruct (N.eqb_spec c 10) as [->|E]; simpl.
    + intuition.
    + split; [tauto|]. intros [_ [H|H]]; [discriminate | congruence].
  - split; [tauto|]. intros [_ [H|H]]; discriminate.
Qed.

Lemma in_run_lit (c : char) (p q : pos) :
  In q (run (Lit c) p) <-> exists rest, snd p = c :: rest /\ q = (S (fst p), rest).
Proof.
  simpl. destruct (snd p) as [|x r]; simpl.
  - split; [tauto|]. intros (rest & H & _); discriminate.
  - destruct (N.eqb_spec x c) as [->|E]; simpl; unfold advance.
    + split.
      * intros [<-|[]]. now exists r.
      * intros (rest & H & ->). injection H as <-. now left.
    + split; [tauto|]. intros (rest & H & _). congruence.
Qed.

Lemma in_run_cls (p q : pos) :
  In q (run not_space_or_at p) <->
  exists c rest, snd p = c :: rest /\ plain c /\ q = (S (fst p), rest).
Proof.
  unfold not_space_or_at. cbn [run]. destruct (snd p) as [|x r].
  - split; [intros []|]. intros (c & rest & H & _); discriminate.
  - destruct (existsb (item_has x) [Space; Chr 64%N]) eqn:E.
    + split; [intros []|]. intros (c & rest & H & Hc & _).
      injection H as <- <-. apply plain_iff in Hc. congruence.
    + apply plain_iff in E. unfold advance. split.
      * intros [<-|[]]. now exists x, r.
      * intros (c & rest & H & _ & ->). injection H as <- <-. now left.
Qed.

Lemma in_rounds_cls (fuel : nat) : forall p q : pos,
  In q (rounds (run not_space_or_at) fuel p) <->
  exists w, w <> [] /\ length w <= fuel /\ Forall plain w
            /\ snd p = w ++ snd q /\ fst q = fst p + length w.
Proof.
  induction fuel as [|fuel IH]; intros p q; cbn [rounds].
  - split; [intros []|]. intros (w & Hne & Hlen & _).
    destruct w; [congruence | simpl in Hlen; lia].
  - rewrite in_flat_map. split.
    + intros (m & Hm & Hq). apply in_run_cls in Hm.
      destruct Hm as (c & rest & Hp & Hc & ->).
      apply in_app_or in Hq. destruct Hq as [Hq | [<- | []]].
      * apply IH in Hq. destruct Hq as (w & _ & Hlen & Hw & Hs & Hf).
        simpl in Hs, Hf. exists (c :: w). simpl.
        repeat split; try congruence; try lia; auto.
      * exists [c]. simpl. repeat split; try congruence; try lia; auto.
    + intros (w & Hne & Hlen & Hw & Hs & Hf).
      destruct w as [|c w]; [congruence|].
      inversion Hw as [|? ? Hc Hw']; subst.
      exists (S (fst p), w ++ snd q). split.
      * apply in_run_cls. exists c, (w ++ snd q). auto.
      * apply in_or_app. destruct w as [|c' w].
        -- right. left. simpl in *. destruct q as [n r]. simpl in *.
           f_equal. lia.
        -- left. apply IH. exists (c' :: w). simpl in *.
           repeat split; try discriminate; try lia; auto.
Qed.

Lemma in_run_part (p q : pos) :
  In q (run (Plus not_space_or_at) p) <->
  exists w, part w /\ snd p = w ++ snd q /\ fst q = fst p + length w.
Proof.
  cbn [run]. rewrite in_rounds_cls. unfold part. split.
  - intros (w & Hne & _ & Hw & Hs & Hf). exists w. auto.
  - intros (w & [Hne Hw] & Hs & Hf). exists w. repeat split; auto.
    rewrite Hs, length_app. lia.
Qed.

End Matcher.

(** What [_is_valid_email] accepts: the well-formed strings, and those
    followed by one newline. *)
Lemma is_valid_email_iff (s : str) :
  _is_valid_email s = true <->
  well_formed s \/ exists s', well_formed s' /\ s = s' ++ [10%N].
Proof.
  unfold _is_valid_email, Re.re_match. rewrite truthy_hd_error.
  unfold pattern. split.
  - intros (q & H).
    apply in_run_cat in H. destruct H as (p0 & H0 & H).
    apply in_run_bol in H0. destruct H0 as [-> _].
    apply in_run_cat in H. destruct H as (p1 & H1 & H).
    apply in_run_part in H1. destruct H1 as (l & Hl & Hs1 & _).
    apply in_run_cat in H. destruct H as (p2 & H2 & H).
    apply in_run_lit in H2. destruct H2 as (r2 & Hs2 & ->).
    apply in_run_cat in H. destruct H as (p3 & H3 & H).
    apply in_run_part in H3. destruct H3 as (d & Hd & Hs3 & _).
    apply in_run_cat in H. destruct H as (p4 & H4 & H).
    apply in_run_lit in H4. destruct H4 as (r4 & Hs4 & ->).
    apply in_run_cat in H. destruct H as (p5 & H5 & H).
    apply in_run_part in H5. destruct H5 as (t & Ht & Hs5 & _).
    apply in_run_eol in H. destruct H as [-> He].
    simpl in *. subst.
    destruct He as [He|He]; rewrite He in *.
    + left. exists l, d, t. rewrite Hs2, Hs4, app_nil_r. auto.
    + right. exists (l ++ [64%N] ++ d ++ [46%N] ++ t). split.
      * exists l, d, t. auto.
      * rewrite Hs2, Hs4. repeat (rewrite <- app_assoc; simpl). reflexivity.
  - assert (G : forall l d t tl, part l -> part d -> part t ->
               tl = [] \/ tl = [10%N] ->
               exists q, In q (Re.run pattern (0, l ++ [64%N] ++ d ++ [46%N] ++ t ++ tl))).
    { intros l d t tl Hl Hd Ht Htl.
      exists (length l + 1 + length d + 1 + length t, tl).
      apply in_run_cat. eexists. split; [apply in_run_bol; split; reflexivity|].
      apply in_run_cat. exists (length l, [64%N] ++ d ++ [46%N] ++ t ++ tl). split.
      { apply in_run_part. exists l. auto. }
      apply in_run_cat. eexists. split.
      { apply in_run_lit. eexists. split; reflexivity. }
      apply in_run_cat. exists (S (length l) + length d, [46%N] ++ t ++ tl). split.
      { apply in_run_part. exists d. auto. }
      apply in_run_cat. eexists. split.
      { apply in_run_lit. eexists. split; reflexivity. }
      apply in_run_cat. exists (S (S (length l) + length d) + length t, tl). split.
      { apply in_run_part. exists t. auto. }
      apply in_run_eol. simpl. split; [f_equal; lia | assumption]. }
    intros [(l & d & t & Hl & Hd & Ht & ->) | (s' & (l & d & t & Hl & Hd & Ht & ->) & ->)].
    + specialize (G l d t [] Hl Hd Ht (or_introl eq_refl)).
      rewrite app_nil_r in G. exact G.
    + specialize (G l d t [10%N] Hl Hd Ht (or_intror eq_refl)).
      repeat (rewrite <- app_assoc; simpl). exact G.
Qed.

(** ** Dictionaries *)

Section DictFacts.

Variables K V : Type.
Variable eqb : K -> K -> bool.
Hypothesis eqb_eq : forall a b, eqb a b = true <-> a = b.

Lemma eqb_refl (k : K) : eqb k k = true.
Proof. now apply eqb_eq. Qed.

Lemma get_set_same (d : Dict.t K V) k v : Dict.get eqb (Dict.set eqb d k v) k = Some v.
Proof.
  induction d as [|[k' v'] d IH]; simpl.
  - now rewrite eqb_refl.
  - destruct (eqb k k') eqn:E; simpl.
    + now rewrite E.
    + now rewrite E.
Qed.

Lemma get_set_other (d : Dict.t K V) k v k' :
  k' <> k -> Dict.get eqb (Dict.set eqb d k v) k' = Dict.get eqb d k'.
Proof.
  intros Hne. induction d as [|[k0 v0] d IH]; simpl.
  - destruct (eqb k' k) eqn:E; [apply eqb_eq in E; congruence | reflexivity].
  - destruct (eqb k k0) eqn:E; simpl.
    + apply eqb_eq in E. subst k0.
      destruct (eqb k' k) eqn:E'; [apply eqb_eq in E'; congruence | reflexivity].
    + now rewrite IH.
Qed.

Lemma get_None_iff (d : Dict.t K V) k : Dict.get eqb d k = None <-> ~ In k (Dict.keys d).
Proof.
  induction d as [|[k' v'] d IH]; simpl.
  - tauto.
  - destruct (eqb k k') eqn:E.
    + apply eqb_eq in E. subst. split; [discriminate | tauto].
    + rewrite IH. split.
      * intros H [H'|H']; [subst; rewrite eqb_refl in E; discriminate | tauto].
      * tauto.
Qed.

Lemma in_dec_keys (d : Dict.t K V) k : In k (Dict.keys d) \/ ~ In k (Dict.keys d).
Proof.
  destruct (Dict.get eqb d k) eqn:G.
  - left. induction d as [|[k' v'] d IH]; simpl in *; [discriminate|].
    destruct (eqb k k') eqn:E.
    + left. symmetry. now apply eqb_eq.
    + right. now apply IH.
  - right. now apply get_None_iff.
Qed.

(** An assignment to a key already present changes one value in place. *)
Lemma set_present (d : Dict.t K V) k v :
  In k (Dict.keys d) ->
  Dict.keys (Dict.set eqb d k v) = Dict.keys d /\ length (Dict.set eqb d k v) = length d.
Proof.
  induction d as [|[k' v'] d IH]; simpl; [tauto|].
  intros H. destruct (eqb k k') eqn:E; simpl; [split; reflexivity|].
  destruct H as [H|H].
  - subst. rewrite eqb_refl in E. discriminate.
  - destruct (IH H) as [E1 E2]. unfold Dict.keys in *.
    rewrite E1, E2. split; reflexivity.
Qed.

(** An assignment to a new key appends an entry. *)
Lemma set_absent (d : Dict.t K V) k v :
  ~ In k (Dict.keys d) -> Dict.set eqb d k v = d ++ [(k, v)].
Proof.
  induction d as [|[k' v'] d IH]; simpl; [reflexivity|].
  intros H. destruct (eqb k k') eqn:E.
  - apply eqb_eq in E. subst. tauto.
  - rewrite IH; [reflexivity | tauto].
Qed.

(** No assignment removes or moves a key. *)
Lemma keys_set (d : Dict.t K V) k v :
  exists extra, Dict.keys (Dict.set eqb d k v) = Dict.keys d ++ extra.
Proof.
  induction d as [|[k' v'] d [extra IH]]; simpl.
  - now exists [k].
  - destruct (eqb k k'); simpl.
    + exists []. now rewrite app_nil_r.
    + exists extra. now rewrite IH.
Qed.

(** Assignments keep the keys distinct. *)
Lemma set_NoDup (d : Dict.t K V) k v :
  NoDup (Dict.keys d) -> NoDup (Dict.keys (Dict.set eqb d k v)).
Proof.
  intros H. destruct (in_dec_keys d k) as [P|P].
  - destruct (set_present d k v P) as [-> _]. exact H.
  - rewrite (set_absent d k v P). unfold Dict.keys in *. rewrite map_app. simpl.
    apply NoDup_app; [exact H | repeat constructor; intros [] | ].
    intros x Hx [<-|[]]. contradiction.
Qed.

(** With distinct keys, the values are what the lookups find. *)
Lemma values_get (d : Dict.t K V) (v : V) :
  NoDup (Dict.keys d) ->
  (In v (Dict.values d) <-> exists k, Dict.get eqb d k = Some v).
Proof.
  induction d as [|[k' v'] d IH]; simpl; intros H.
  - split; [intros [] | intros [k G]; discriminate].
  - inversion H as [|? ? Hk Hd]; subst. split.
    + intros [<-|Hv].
      * exists k'. now rewrite eqb_refl.
      * apply IH in Hv; [|exact Hd]. destruct Hv as [k G]. exists k.
        destruct (eqb k k') eqn:E; [|exact G].
        apply eqb_eq in E. subst k'. exfalso. apply Hk.
        destruct (in_dec_keys d k) as [I|I]; [exact I|].
        apply get_None_iff in I. congruence.
    + intros [k G]. destruct (eqb k k').
      * left. congruence.
      * right. apply IH; [exact Hd|]. now exists k.
Qed.

End DictFacts.

Lemma Zeqb_eq (a b : Z) : Z.eqb a b = true <-> a = b.
Proof. apply Z.eqb_eq. Qed.

(** ** Construction of a [User] *)

Lemma User__init__valid now i n e r m c :
  _is_valid_email e = true ->
  User__init__ now i n e r m c =
  Ok {| id := i; name := n; email := e; role := default USER r;
        metadata := default (Dict.empty str any) m; created_at := default now c |}.
Proof. intros H. unfold User__init__, __post_init__. simpl. now rewrite H. Qed.

Lemma User__init__invalid now i n e r m c :
  _is_valid_email e = false ->
  User__init__ now i n e r m c = Raised (ValueError (lit "Invalid email: " ++ e)).
Proof. intros H. unfold User__init__, __post_init__. simpl. now rewrite H. Qed.

(** The last character of a well-formed string is plain. *)
Lemma well_formed_last (s : str) (c : char) :
  well_formed (s ++ [c]) -> plain c.
Proof.
  intros (l & d & t & _ & _ & [Hne Ht] & E).
  destruct (exists_last Hne) as (t' & c' & ->).
  apply Forall_app in Ht. destruct Ht as [_ Ht]. inversion Ht; subst.
  replace (l ++ [64%N] ++ d ++ [46%N] ++ t' ++ [c'])
    with ((l ++ [64%N] ++ d ++ [46%N] ++ t') ++ [c']) in E
    by (repeat (rewrite <- app_assoc; simpl); reflexivity).
  apply app_inj_tail in E. destruct E as [_ ->]. assumption.
Qed.

(** Every other string is rejected: the constructor raises [ValueError]
    for an email that is neither well formed nor a well-formed string
    followed by one newline. *)
Lemma User__init__rejects now i n e r m c :
  (well_formed e -> False) ->
  (forall s', well_formed s' -> e <> s' ++ [10%N]) ->
  User__init__ now i n e r m c = Raised (ValueError (lit "Invalid email: " ++ e)).
Proof.
  intros H1 H2. apply User__init__invalid.
  destruct (_is_valid_email e) eqn:V; [|reflexivity].
  apply is_valid_email_iff in V. destruct V as [V | (s' & V & E)].
  - now apply H1 in V.
  - now apply H2 in E.
Qed.

(** C1 (the code departs from it): an email that ends in a newline after a
    well-formed address does not match the pattern of plain characters, an
    [@], plain characters, a dot and plain characters, and the constructor
    accepts it all the same, for every identifier, name, role and clock:
    [$] also matches before a final newline. *)
Theorem C1_trailing_newline_accepted :
  forall (now : datetime) (i : Z) (n : str) (r : option UserRole),
    let e := lit "a@b.c" ++ [10%N] in
    (well_formed e -> False) /\
    _is_valid_email e = true /\
    exists u, User__init__ now i n e r None None = Ok u /\ email u = e.
Proof.
  intros now0 i n r e. split; [|split].
  - intros H. apply well_formed_last in H. destruct H as [H _]. discriminate.
  - reflexivity.
  - eexists. split; [apply User__init__valid; reflexivity | reflexivity].
Qed.

(** C2: with an email that the validation accepts, the constructor returns
    a record with the given identifier, name and email, and [to_dict] of
    that record holds them under ["id"], ["name"] and ["email"], the role's
    name under ["role"] and the ISO format of the creation time under
    ["created_at"], and has no other key. *)
Theorem C2_to_dict_round_trip
    (now : datetime) (i : Z) (n e : str) (r : option UserRole)
    (m : option (Dict.t str any)) (c : option datetime) :
  _is_valid_email e = true ->
  exists u,
    User__init__ now i n e r m c = Ok u /\
    id u = i /\ name u = n /\ email u = e /\
    role u = default USER r /\ created_at u = default now c /\
    Dict.get str_eqb (to_dict u) (lit "id") = Some (AInt i) /\
    Dict.get str_eqb (to_dict u) (lit "name") = Some (AStr n) /\
    Dict.get str_eqb (to_dict u) (lit "email") = Some (AStr e) /\
    Dict.get str_eqb (to_dict u) (lit "role") = Some (AStr (UserRole_name (role u))) /\
    Dict.get str_eqb (to_dict u) (lit "created_at")
      = Some (AStr (isoformat (created_at u))) /\
    Dict.keys (to_dict u)
      = [lit "id"; lit "name"; lit "email"; lit "role"; lit "created_at"].
Proof.
  intros H. eexists. split; [apply User__init__valid, H|].
  repeat split.
Qed.

Lemma C2_to_dict_round_trip_witness :
  _is_valid_email (lit "alice@example.com") = true /\
  exists u,
    User__init__ (mkDatetime 2024 1 2 3 4 5 0) 1 (lit "Alice")
      (lit "alice@example.com") (Some ADMIN) None None = Ok u /\
    Dict.get str_eqb (to_dict u) (lit "role") = Some (AStr (lit "ADMIN")) /\
    Dict.get str_eqb (to_dict u) (lit "created_at")
      = Some (AStr (lit "2024-01-02T03:04:05")).
Proof.
  split; [reflexivity|].
  destruct (C2_to_dict_round_trip (mkDatetime 2024 1 2 3 4 5 0) 1 (lit "Alice")
              (lit "alice@example.com") (Some ADMIN) None None eq_refl)
    as (u & Hu & _ & _ & _ & Hr & Hc & _ & _ & _ & Hrole & Hcreated & _).
  exists u. split; [exact Hu|]. rewrite Hrole, Hcreated, Hr, Hc. split; reflexivity.
Defined.

(** ** The decimal rendering of an integer has only plain characters *)

Lemma plain_digits (d : Decimal.uint) :
  Forall plain (lit (NilEmpty.string_of_uint d)).
Proof.
  unfold lit.
  induction d; simpl; constructor; try assumption;
    (split; [reflexivity | discriminate]).
Qed.

Lemma plain_str_of_int (z : Z) : Forall plain (str_of_int z).
Proof.
  unfold str_of_int, NilZero.string_of_int.
  assert (U : forall d, Forall plain (lit (NilZero.string_of_uint d))).
  { intros d. destruct d; try apply plain_digits.
    repeat constructor. discriminate. }
  destruct (Z.to_int z) as [d|d]; [apply U|].
  change (lit (String "-" (NilZero.string_of_uint d)))
    with (45%N :: lit (NilZero.string_of_uint d)).
  constructor; [split; [reflexivity | discriminate] | apply U].
Qed.

(** The email that [fetch_by_id] makes up passes the validation, whatever
    the identifier. *)
Lemma mock_email_valid (i : Z) :
  _is_valid_email (lit "user" ++ str_of_int i ++ lit "@example.com") = true.
Proof.
  apply is_valid_email_iff. left.
  exists (lit "user" ++ str_of_int i), (lit "example"), (lit "com").
  split; [|split; [|split]].
  - split; [discriminate|].
    apply Forall_app. split; [|apply plain_str_of_int].
    repeat constructor; discriminate.
  - split; [discriminate|]. repeat constructor; discriminate.
  - split; [discriminate|]. repeat constructor; discriminate.
  - repeat (rewrite <- app_assoc; simpl). reflexivity.
Qed.

(** ** One call of each method *)

Lemma logged_run {S A R : Type} `{Console S} `{Repr A} `{Repr R}
    (fname : string) (func : A -> M S R) (args : A) (s : S) :
  logged fname func args s =
  match func args (write (Calling fname (repr args)) s) with
  | (Ok r, s') => (Ok r, write (Returned fname (repr r)) s')
  | (Raised e, s') =>
      (Raised e, if is_Exception e then write (RaisedLine fname (exn_str e)) s' else s')
  end.
Proof.
  unfold logged, bind, try_except, print, ret, raise.
  destruct (func args (write (Calling fname (repr args)) s)) as [[r|e] s']; simpl.
  - reflexivity.
  - destruct (is_Exception e); reflexivity.
Qed.

(** A hit in the cache: the stored object is returned, the world is left
    as it was. *)
Lemma fetch_wrapped_hit env i w u :
  Dict.get Z.eqb (cache w) i = Some u ->
  fetch_by_id__wrapped__ env i w = (Ok (Some u), w).
Proof.
  intros H. unfold fetch_by_id__wrapped__, bind, _get_cache, BaseService_get_cache.
  fold (cache w). rewrite H. reflexivity.
Qed.

(** A miss, and the awaited delay completes: a new object is constructed,
    stored under the identifier and returned. *)
Lemma fetch_wrapped_miss_completes env i w :
  Dict.get Z.eqb (cache w) i = None ->
  sleep env = Completes ->
  let u := {| addr := objects w;
              fields := {| id := i; name := lit "User " ++ str_of_int i;
                           email := lit "user" ++ str_of_int i ++ lit "@example.com";
                           role := USER; metadata := Dict.empty str any;
                           created_at := now env |} |} in
  fetch_by_id__wrapped__ env i w = (Ok (Some u), stored w i u).
Proof.
  intros H Hs u.
  unfold fetch_by_id__wrapped__, bind, _get_cache, BaseService_get_cache.
  fold (cache w). rewrite H. simpl.
  unfold try_except, bind, new_User. rewrite Hs. simpl.
  rewrite User__init__valid by apply mock_email_valid. reflexivity.
Qed.

(** A miss, and the awaited delay raises an [Exception]: a line is printed
    and the result is [None]. *)
Lemma fetch_wrapped_miss_raises env i w e :
  Dict.get Z.eqb (cache w) i = None ->
  sleep env = Raises e ->
  is_Exception e = true ->
  exists msg, fetch_by_id__wrapped__ env i w = (Ok None, write (Text msg) w).
Proof.
  intros H Hs He.
  unfold fetch_by_id__wrapped__, bind, _get_cache, BaseService_get_cache.
  fold (cache w). rewrite H. simpl.
  unfold try_except, bind. rewrite Hs. simpl.
  destruct e; try discriminate; simpl; eexists; reflexivity.
Qed.

(** A miss, and the awaited delay raises what is no [Exception]: it
    propagates. *)
Lemma fetch_wrapped_miss_cancelled env i w :
  Dict.get Z.eqb (cache w) i = None ->
  sleep env = Raises CancelledError ->
  fetch_by_id__wrapped__ env i w = (Raised CancelledError, w).
Proof.
  intros H Hs.
  unfold fetch_by_id__wrapped__, bind, _get_cache, BaseService_get_cache.
  fold (cache w). rewrite H. simpl.
  unfold try_except, bind. rewrite Hs. reflexivity.
Qed.

Lemma create_user_valid now0 n e r w :
  _is_valid_email e = true ->
  let i := (Dict.len (cache w) + 1)%Z in
  let u := {| addr := objects w;
              fields := {| id := i; name := n; email := e; role := default USER r;
                           metadata := Dict.empty str any; created_at := now0 |} |} in
  create_user now0 n e r w = (Ok u, stored w i u).
Proof.
  intros H i u. unfold create_user, bind, cache_len, new_User. simpl.
  rewrite User__init__valid by assumption. reflexivity.
Qed.

Lemma create_user_invalid now0 n e r w :
  _is_valid_email e = false ->
  create_user now0 n e r w =
  (Raised (ValueError (lit "Invalid email: " ++ e)),
   {| service := service w; stdout := stdout w; objects := S (objects w) |}).
Proof.
  intros H. unfold create_user, bind, cache_len, new_User. simpl.
  rewrite User__init__invalid by assumption. reflexivity.
Qed.

Lemma cache_stored w i u : cache (stored w i u) = Dict.set Z.eqb (cache w) i u.
Proof. reflexivity. Qed.

Lemma cache_write l w : cache (write l w) = cache w.
Proof. reflexivity. Qed.

(** What a call of the decorated [fetch_by_id] does to the cache: nothing,
    or one assignment under the identifier asked for. *)
Lemma fetch_by_id_cache env i w :
  cache (snd (fetch_by_id env i w)) = cache w \/
  exists u, cache (snd (fetch_by_id env i w)) = Dict.set Z.eqb (cache w) i u.
Proof.
  unfold fetch_by_id. rewrite logged_run.
  set (w0 := write (Calling "fetch_by_id" (repr i)) w).
  change (cache w) with (cache w0).
  destruct (Dict.get Z.eqb (cache w0) i) as [u|] eqn:G.
  - rewrite (fetch_wrapped_hit env i w0 u G). left. reflexivity.
  - destruct (sleep env) as [|e] eqn:Hs.
    + rewrite (fetch_wrapped_miss_completes env i w0 G Hs). right. eexists. reflexivity.
    + destruct (is_Exception e) eqn:He.
      * destruct (fetch_wrapped_miss_raises env i w0 e G Hs He) as [msg ->]. left. reflexivity.
      * destruct e; try discriminate.
        rewrite (fetch_wrapped_miss_cancelled env i w0 G Hs). left. reflexivity.
Qed.

Lemma create_user_cache now0 n e r w :
  cache (snd (create_user now0 n e r w)) = cache w \/
  exists i u, cache (snd (create_user now0 n e r w)) = Dict.set Z.eqb (cache w) i u.
Proof.
  destruct (_is_valid_email e) eqn:V.
  - rewrite (create_user_valid now0 n e r w V). right. eexists _, _. reflexivity.
  - rewrite (create_user_invalid now0 n e r w V). left. reflexivity.
Qed.

Lemma step_keys (w : World) (o : op) :
  exists extra, Dict.keys (cache (step w o)) = Dict.keys (cache w) ++ extra.
Proof.
  assert (Same : forall w', cache w' = cache w ->
            exists extra, Dict.keys (cache w') = Dict.keys (cache w) ++ extra).
  { intros w' ->. exists []. now rewrite app_nil_r. }
  destruct o as [i | i item | env i | now0 n e r | r]; simpl.
  - apply Same. reflexivity.
  - apply keys_set.
  - destruct (fetch_by_id_cache env i w) as [E | [u E]].
    + apply Same, E.
    + rewrite E. apply keys_set.
  - destruct (create_user_cache now0 n e r w) as [E | (i & u & E)].
    + apply Same, E.
    + rewrite E. apply keys_set.
  - apply Same. reflexivity.
Qed.

Lemma steps_keys (ops : list op) : forall w : World,
  exists extra, Dict.keys (cache (steps w ops)) = Dict.keys (cache w) ++ extra.
Proof.
  unfold steps. induction ops as [|o ops IH]; intros w; simpl.
  - exists []. now rewrite app_nil_r.
  - destruct (IH (step w o)) as [extra2 E2].
    destruct (step_keys w o) as [extra1 E1].
    exists (extra1 ++ extra2). now rewrite E2, E1, app_assoc.
Qed.

(** The keys of the cache stay distinct over every operation. *)
Lemma steps_NoDup (ops : list op) : forall w : World,
  NoDup (Dict.keys (cache w)) -> NoDup (Dict.keys (cache (steps w ops))).
Proof.
  unfold steps. induction ops as [|o ops IH]; intros w H; simpl; [exact H|].
  apply IH.
  assert (Set_ : forall i u, NoDup (Dict.keys (Dict.set Z.eqb (cache w) i u)))
    by (intros; apply set_NoDup; [apply Zeqb_eq | exact H]).
  destruct o as [i | i item | env i | now0 n e r | r]; simpl.
  - exact H.
  - apply Set_.
  - destruct (fetch_by_id_cache env i w) as [E | [u E]]; rewrite E; auto.
  - destruct (create_user_cache now0 n e r w) as [E | (i & u & E)]; rewrite E; auto.
  - exact H.
Qed.

(** C3: two lookups of one identifier in a row give the same value and
    leave the world as it was; and once [fetch_by_id] has returned a user,
    the next [fetch_by_id] of that identifier returns the same object, whatever
    the clock and the event loop do: no object is constructed, the service
    is unchanged, and only the two lines of [logged] are printed. *)
Theorem C3_repeated_lookups :
  (forall (w : World) (i : Z),
     (x <- _get_cache i ;; y <- _get_cache i ;; ret (x, y)) w
     = (Ok (Dict.get Z.eqb (cache w) i, Dict.get Z.eqb (cache w) i), w))
  /\
  (forall (env env' : Env) (i : Z) (w w1 : World) (u : UserObj),
     fetch_by_id env i w = (Ok (Some u), w1) ->
     exists w2,
       fetch_by_id env' i w1 = (Ok (Some u), w2) /\
       service w2 = service w1 /\
       objects w2 = objects w1 /\
       stdout w2 = stdout w1 ++ [Calling "fetch_by_id" (SInt i);
                                 Returned "fetch_by_id" (SUser u)]).
Proof.
  split; [reflexivity|].
  intros env env' i w w1 u H.
  assert (G : Dict.get Z.eqb (cache w1) i = Some u).
  { unfold fetch_by_id in H. rewrite logged_run in H.
    set (w0 := write (Calling "fetch_by_id" (repr i)) w) in *.
    destruct (Dict.get Z.eqb (cache w0) i) as [c|] eqn:G0.
    - rewrite (fetch_wrapped_hit env i w0 c G0) in H. injection H as <- <-. exact G0.
    - destruct (sleep env) as [|e] eqn:Hs.
      + rewrite (fetch_wrapped_miss_completes env i w0 G0 Hs) in H.
        injection H as <- <-.
        exact (get_set_same Z UserObj Z.eqb Zeqb_eq (cache w0) i _).
      + destruct (is_Exception e) eqn:He.
        * destruct (fetch_wrapped_miss_raises env i w0 e G0 Hs He) as [msg E].
          rewrite E in H. discriminate.
        * destruct e; try discriminate.
          rewrite (fetch_wrapped_miss_cancelled env i w0 G0 Hs) in H. discriminate. }
  unfold fetch_by_id. rewrite logged_run.
  rewrite fetch_wrapped_hit with (u := u) by exact G.
  eexists. split; [reflexivity|]. simpl. rewrite <- app_assoc. auto.
Qed.

Lemma C3_repeated_lookups_witness :
  let env := {| now := mkDatetime 2024 1 2 3 4 5 6; sleep := Completes |} in
  let env' := {| now := mkDatetime 2025 6 7 8 9 10 11; sleep := Raises TimeoutError |} in
  exists u w1 w2,
    fetch_by_id env 7 fresh = (Ok (Some u), w1) /\
    fetch_by_id env' 7 w1 = (Ok (Some u), w2) /\
    objects w2 = 1.
Proof.
  intros env env'.
  destruct (proj2 C3_repeated_lookups env env' 7%Z fresh
              (snd (fetch_by_id env 7 fresh))
              {| addr := 0;
                 fields := {| id := 7; name := lit "User 7";
                              email := lit "user7@example.com"; role := USER;
                              metadata := []; created_at := now env |} |}
              eq_refl)
    as (w2 & H2 & _ & Ho & _).
  do 3 eexists. split; [reflexivity|]. split; [exact H2 | exact Ho].
Defined.




(** C6: over every sequence of [_get_cache], [_set_cache], [fetch_by_id],
    [create_user] and [get_users_by_role], returning or raising, the keys
    of the cache stay, in their order, and new keys come after them; so a
    key that is present stays present. *)
Theorem C6_no_eviction (ops : list op) (w : World) :
  (exists extra,
     Dict.keys (cache (steps w ops)) = Dict.keys (cache w) ++ extra) /\
  (forall k, In k (Dict.keys (cache w)) -> In k (Dict.keys (cache (steps w ops)))).
Proof.
  destruct (steps_keys ops w) as [extra E]. split.
  - now exists extra.
  - intros k H. rewrite E. apply in_or_app. now left.
Qed.

(** C8: with an email that the validation rejects, [create_user] raises
    [ValueError], and the service, hence its cache, and the console are
    what they were. *)
Theorem C8_create_user_atomic
    (now0 : datetime) (n e : str) (r : option UserRole) (w : World) :
  _is_valid_email e = false ->
  exists w',
    create_user now0 n e r w = (Raised (ValueError (lit "Invalid email: " ++ e)), w') /\
    service w' = service w /\
    cache w' = cache w /\
    stdout w' = stdout w.
Proof.
  intros H. rewrite (create_user_invalid now0 n e r w H).
  eexists. split; [reflexivity|]. auto.
Qed.

Lemma C8_create_user_atomic_witness :
  exists w',
    create_user (mkDatetime 2024 1 2 3 4 5 6) (lit "Mallory") (lit "not an email")
      None fresh
    = (Raised (ValueError (lit "Invalid email: not an email")), w') /\
    cache w' = [].
Proof.
  destruct (C8_create_user_atomic (mkDatetime 2024 1 2 3 4 5 6) (lit "Mallory")
              (lit "not an email") None fresh eq_refl)
    as (w' & H & _ & Hc & _).
  exists w'. split; [exact H | exact Hc].
Defined.

(** ** Identifiers given by [create_user] *)

Lemma keys_length {K V : Type} (d : Dict.t K V) : length (Dict.keys d) = length d.
Proof. apply length_map. Qed.

Lemma Z_of_nat_not_in_seq (k : nat) :
  ~ In (Z.of_nat (S k)) (map Z.of_nat (seq 1 k)).
Proof.
  intros H. apply in_map_iff in H. destruct H as (x & E & H).
  apply in_seq in H. lia.
Qed.

Lemma NoDup_map_Z_of_nat (l : list nat) : NoDup l -> NoDup (map Z.of_nat l).
Proof.
  induction 1 as [|x l Hx _ IH]; simpl; constructor; [|exact IH].
  intros H. apply in_map_iff in H. destruct H as (y & E & Hy).
  apply Nat2Z.inj in E. now subst y.
Qed.

(** From a cache whose keys are [1..k], a run of [create_user] calls
    appends the created users, with the identifiers [k+1], [k+2], ... *)
Lemma create_users_from (reqs : list request) : forall (w : World) (k : nat),
  Dict.keys (cache w) = map Z.of_nat (seq 1 k) ->
  forall us w', create_users reqs w = (us, w') ->
    map uid us = map Z.of_nat (seq (S k) (length us)) /\
    cache w' = cache w ++ map (fun u => (uid u, u)) us.
Proof.
  induction reqs as [|r reqs IH]; intros w k Hk us w' H; simpl in H.
  - injection H as <- <-. simpl. now rewrite app_nil_r.
  - destruct (_is_valid_email (req_email r)) eqn:V.
    + rewrite (create_user_valid (req_now r) (req_name r) (req_email r) (req_role r) w V)
        in H.
      cbv zeta in H.
      assert (L : Dict.len (cache w) = Z.of_nat k).
      { unfold Dict.len. rewrite <- keys_length, Hk, length_map, length_seq. reflexivity. }
      rewrite L in H.
      replace (Z.of_nat k + 1)%Z with (Z.of_nat (S k)) in H by lia.
      set (u := {| addr := objects w; fields := _ |}) in H.
      assert (C : cache (stored w (Z.of_nat (S k)) u) = cache w ++ [(Z.of_nat (S k), u)]).
      { rewrite cache_stored. apply set_absent; [apply Zeqb_eq|].
        rewrite Hk. apply Z_of_nat_not_in_seq. }
      destruct (create_users reqs (stored w (Z.of_nat (S k)) u)) as [us1 w1] eqn:R.
      injection H as <- <-.
      destruct (IH (stored w (Z.of_nat (S k)) u) (S k)) with (us := us1) (w' := w1)
        as [I1 I2]; [|exact R|].
      * rewrite C. unfold Dict.keys in *.
        rewrite seq_S, !map_app, Hk. reflexivity.
      * split.
        -- simpl. now rewrite I1.
        -- rewrite I2, C, <- app_assoc. reflexivity.
    + rewrite (create_user_invalid (req_now r) (req_name r) (req_email r) (req_role r) w V)
        in H.
      apply (IH _ k) in H; [exact H | exact Hk].
Qed.

(** C9: [create_user] with an accepted email gives the user the identifier
    [len(cache) + 1] and stores it under that key; on a fresh service on
    which only [create_user] is called, the n-th user created has the
    identifier n, the identifiers are distinct, and the cache holds the
    created users in order; and when the key [len(cache) + 1] is already
    taken, the call stores the new user there, in place: the keys and the number
    of entries stay and the entry's former value is replaced. *)
Theorem C9_create_user_ids :
  (forall (now0 : datetime) (n e : str) (r : option UserRole) (w : World),
     _is_valid_email e = true ->
     exists u w',
       create_user now0 n e r w = (Ok u, w') /\
       uid u = (Dict.len (cache w) + 1)%Z /\
       addr u = objects w /\
       cache w' = Dict.set Z.eqb (cache w) (Dict.len (cache w) + 1)%Z u /\
       Dict.get Z.eqb (cache w') (Dict.len (cache w) + 1)%Z = Some u)
  /\
  (forall (reqs : list request) (us : list UserObj) (w' : World),
     create_users reqs fresh = (us, w') ->
     (forall n u, nth_error us n = Some u -> uid u = Z.of_nat (S n)) /\
     NoDup (map uid us) /\
     Dict.keys (cache w') = map uid us /\
     Dict.values (cache w') = us)
  /\
  (forall (now0 : datetime) (n e : str) (r : option UserRole) (w : World)
          (old : UserObj),
     _is_valid_email e = true ->
     Dict.get Z.eqb (cache w) (Dict.len (cache w) + 1)%Z = Some old ->
     exists u w',
       create_user now0 n e r w = (Ok u, w') /\
       Dict.get Z.eqb (cache w') (Dict.len (cache w) + 1)%Z = Some u /\
       addr u = objects w /\
       Dict.keys (cache w') = Dict.keys (cache w) /\
       Dict.len (cache w') = Dict.len (cache w)).
Proof.
  split; [|split].
  - intros now0 n e r w V.
    rewrite (create_user_valid now0 n e r w V). cbv zeta.
    do 2 eexists. split; [reflexivity|]. repeat split.
    rewrite cache_stored. apply get_set_same, Zeqb_eq.
  - intros reqs us w' H.
    destruct (create_users_from reqs fresh 0 eq_refl us w' H) as [I1 I2].
    simpl in I2. repeat split.
    + intros n u Hn.
      apply (map_nth_error uid) in Hn. rewrite I1 in Hn.
      rewrite nth_error_map in Hn.
      destruct (nth_error (seq 1 (length us)) n) as [x|] eqn:Hx; simpl in Hn;
        [|discriminate].
      injection Hn as Hn. rewrite <- Hn.
      assert (B : n < length (seq 1 (length us))) by (apply nth_error_Some; congruence).
      rewrite length_seq in B.
      apply nth_error_nth with (d := 0) in Hx.
      rewrite seq_nth in Hx by exact B. now subst x.
    + rewrite I1. apply NoDup_map_Z_of_nat, seq_NoDup.
    + rewrite I2. unfold Dict.keys. rewrite map_map. reflexivity.
    + rewrite I2. unfold Dict.values. rewrite map_map. apply map_id.
  - intros now0 n e r w old V G.
    rewrite (create_user_valid now0 n e r w V). cbv zeta.
    assert (P : In (Dict.len (cache w) + 1)%Z (Dict.keys (cache w))).
    { destruct (in_dec Z.eq_dec (Dict.len (cache w) + 1)%Z (Dict.keys (cache w)))
        as [I|I]; [exact I|].
      apply (get_None_iff Z UserObj Z.eqb Zeqb_eq) in I. congruence. }
    do 2 eexists. split; [reflexivity|]. rewrite cache_stored.
    destruct (set_present Z UserObj Z.eqb Zeqb_eq (cache w) (Dict.len (cache w) + 1)%Z
                {| addr := objects w;
                   fields := {| id := (Dict.len (cache w) + 1)%Z; name := n; email := e;
                                role := default USER r;
                                metadata := Dict.empty str any;
                                created_at := now0 |} |} P) as [S1 S2].
    repeat split.
    + apply get_set_same, Zeqb_eq.
    + exact S1.
    + unfold Dict.len in *. now rewrite S2.
Qed.

(** On a fresh service, [fetch_by_id(2)] caches a user under the key 2;
    the next [create_user] computes the identifier 2 and takes the entry
    over: the cache then holds the created user alone. *)
Lemma C9_create_user_ids_witness :
  let env := {| now := mkDatetime 2024 1 2 3 4 5 6; sleep := Completes |} in
  let w := snd (fetch_by_id env 2 fresh) in
  exists fetched u w',
    Dict.values (cache w) = [fetched] /\ uid fetched = 2%Z /\
    create_user (now env) (lit "Bob") (lit "bob@example.com") None w = (Ok u, w') /\
    uid u = 2%Z /\ name (fields u) = lit "Bob" /\
    Dict.len (cache w') = 1%Z /\
    Dict.get Z.eqb (cache w') 2%Z = Some u.
Proof.
  intros env w.
  destruct (proj2 (proj2 C9_create_user_ids) (now env) (lit "Bob")
              (lit "bob@example.com") None w
              {| addr := 0;
                 fields := {| id := 2; name := lit "User 2";
                              email := lit "user2@example.com"; role := USER;
                              metadata := []; created_at := now env |} |}
              eq_refl eq_refl)
    as (u & w' & H & G & _ & _ & L).
  destruct (proj1 C9_create_user_ids (now env) (lit "Bob")
              (lit "bob@example.com") None w eq_refl)
    as (u1 & w1 & H1 & I1 & _).
  rewrite H in H1. injection H1 as <- <-.
  eexists _, u, w'. split; [reflexivity|]. split; [reflexivity|].
  split; [exact H|]. split; [exact I1|].
  split; [|split; [exact L | exact G]].
  unfold create_user, bind, cache_len, new_User in H. simpl in H.
  injection H as <- _. reflexivity.
Defined.

(** ** [get_users_by_role] *)

Lemma comprehension_filter {A B : Type} (elt : A -> B) (xs : list A) (cond : A -> bool) :
  comprehension elt xs cond = map elt (filter cond xs).
Proof.
  unfold comprehension.
  assert (G : forall acc,
            fold_left (fun acc x => if cond x then acc ++ [elt x] else acc) xs acc
            = acc ++ map elt (filter cond xs)).
  { induction xs as [|x xs IH]; intros acc; simpl.
    - now rewrite app_nil_r.
    - rewrite IH. destruct (cond x); simpl; [|reflexivity].
      now rewrite <- app_assoc. }
  apply G.
Qed.

Lemma UserRole_eqb_eq (r1 r2 : UserRole) : UserRole_eqb r1 r2 = true <-> r1 = r2.
Proof. destruct r1, r2; simpl; split; intros H; try reflexivity; discriminate. Qed.

(** C10: [get_users_by_role] returns the values of the cache, in the
    order of its entries, filtered by equality of the role with the one
    given, and leaves the world as it was; a user is in the list exactly
    when it is a value of the cache and has that role. *)
Theorem C10_get_users_by_role (r : UserRole) (w : World) :
  get_users_by_role r w
  = (Ok (filter (fun u => UserRole_eqb (role (fields u)) r) (Dict.values (cache w))), w)
  /\
  forall u,
    In u (filter (fun u => UserRole_eqb (role (fields u)) r) (Dict.values (cache w)))
    <-> In u (Dict.values (cache w)) /\ role (fields u) = r.
Proof.
  split.
  - unfold get_users_by_role. rewrite comprehension_filter, map_id. reflexivity.
  - intros u. rewrite filter_In, UserRole_eqb_eq. reflexivity.
Qed.

(** ** [DatabaseConnection] *)

(** C7: for every connection string, [__aenter__] on the connection that
    [__init__] builds prints a line and, the simulated delay over, returns
    that same connection, whose [_connection] is [None]; [__aexit__] prints
    a line and returns [False] whatever its three arguments are; so an
    exception raised by the body of [async with] comes out of it, after
    the closing line. *)
Theorem C7_connection_is_inert :
  forall (S : Type) (C : Console S) (cs : str) (s : S),
    let self := DatabaseConnection__init__ cs in
    __aenter__ self Completes s
      = (Ok self, write (Text (lit "Connecting to " ++ cs)) s) /\
    _connection self = None /\
    (forall (o : outcome),
       snd (__aenter__ self o s) = write (Text (lit "Connecting to " ++ cs)) s) /\
    (forall (T V B : Type) (exc_type : T) (exc_val : V) (exc_tb : B),
       __aexit__ self exc_type exc_val exc_tb s
       = (Ok false, write (Text (lit "Closing database connection")) s)) /\
    (forall (A : Type) (body : DatabaseConnection -> M S A) (e : exn) (s1 : S),
       body self (write (Text (lit "Connecting to " ++ cs)) s) = (Raised e, s1) ->
       async_with self Completes body s
       = (Raised e, write (Text (lit "Closing database connection")) s1)).
Proof.
  intros S C cs s self. split; [reflexivity|]. split; [reflexivity|].
  split; [|split].
  - intros [|e]; reflexivity.
  - reflexivity.
  - intros A body e s1 H.
    unfold async_with, bind.
    change (__aenter__ self Completes s)
      with (Ok self, write (Text (lit "Connecting to " ++ cs)) s).
    cbv beta iota. rewrite H. reflexivity.
Qed.

Lemma C7_connection_is_inert_witness :
  async_with (DatabaseConnection__init__ (lit "db://x")) Completes
    (fun _ => raise (A := unit) (ValueError (lit "boom"))) ([] : list line)
  = (Raised (ValueError (lit "boom")),
     [Text (lit "Connecting to db://x"); Text (lit "Closing database connection")]).
Proof.
  exact (proj2 (proj2 (proj2 (proj2
           (C7_connection_is_inert (list line) Console_lines (lit "db://x") []))))
           unit (fun _ => raise (ValueError (lit "boom")))
           (ValueError (lit "boom")) _ eq_refl).
Defined.

(** ** [debounce] *)

Lemma compare_cont_swap (p q : positive) :
  Pos.compare_cont Eq q p = CompOpp (Pos.compare_cont Eq p q).
Proof. symmetry. apply (Pos.compare_cont_antisym p q Eq). Qed.

Lemma SFltb_not_SFleb (x y : SpecFloat.spec_float) :
  SpecFloat.SFltb x y = true -> SpecFloat.SFleb y x = false.
Proof.
  unfold SpecFloat.SFltb, SpecFloat.SFleb, SpecFloat.SFcompare.
  destruct x as [sx|sx| |sx mx ex], y as [sy|sy| |sy my ey];
    try discriminate; try reflexivity;
    try (destruct sx; try discriminate; reflexivity);
    try (destruct sy; try discriminate; reflexivity);
    try (destruct sx, sy; try discriminate; reflexivity).
  rewrite (Z.compare_antisym ex ey), (compare_cont_swap mx my).
  destruct sx, sy; try discriminate; try reflexivity;
    destruct (ex ?= ey)%Z; simpl; try discriminate; try reflexivity;
    destruct (Pos.compare_cont Eq mx my); simpl; try discriminate; reflexivity.
Qed.

(** On floats, [x < y] excludes [y <= x]. *)
Lemma ltb_not_leb (x y : float) :
  PrimFloat.ltb x y = true -> PrimFloat.leb y x = false.
Proof. rewrite ltb_spec, leb_spec. apply SFltb_not_SFleb. Qed.

Section DebounceFacts.

Variables W A R : Type.
Variable delay : float.
Variable func : A -> M W R.

Lemma wrapper_suppresses (now0 : float) (args : A) (c : Debounced W) :
  PrimFloat.ltb (PrimFloat.sub now0 (last_call c)) delay = true ->
  wrapper delay func now0 args c = (Ok None, c).
Proof.
  intros H. unfold wrapper. now rewrite (ltb_not_leb _ _ H).
Qed.

Lemma wrapper_lets_through (now0 : float) (args : A) (c : Debounced W) :
  PrimFloat.leb delay (PrimFloat.sub now0 (last_call c)) = true ->
  wrapper delay func now0 args c =
  match func args (inner c) with
  | (Ok r, w') => (Ok (Some r), {| last_call := now0; inner := w' |})
  | (Raised e, w') => (Raised e, {| last_call := now0; inner := w' |})
  end.
Proof. intros H. unfold wrapper. now rewrite H. Qed.

(** In a run, [last_call] holds the clock reading of the latest call that
    was let through. *)
Lemma last_call_is_last_executed (cs : list (float * A)) :
  forall (c c' : Debounced W) (rs : list (result (option R))) (acc : option float),
    calls delay func cs c = (rs, c') ->
    (forall t0, acc = Some t0 -> last_call c = t0) ->
    forall t, last_executed cs rs acc = Some t -> last_call c' = t.
Proof.
  induction cs as [|[t1 a] cs IH]; intros c c' rs acc H Hacc t L; simpl in H.
  - injection H as <- <-. simpl in L. auto.
  - destruct (wrapper delay func t1 a c) as [r c1] eqn:Hw.
    destruct (calls delay func cs c1) as [rs1 c2] eqn:Hc.
    injection H as <- <-. simpl in L.
    unfold wrapper in Hw.
    destruct (PrimFloat.leb delay (PrimFloat.sub t1 (last_call c))).
    + destruct (func a (inner c)) as [[r0|e] w1]; injection Hw as <- <-;
        apply (IH _ _ _ _ Hc) with (t := t) in L; auto;
        intros t0 E; injection E as <-; reflexivity.
    + injection Hw as <- <-. apply (IH _ _ _ _ Hc) with (t := t) in L; auto.
Qed.

End DebounceFacts.

(** C5: in a run of a debounced function since its decoration, let [t] be
    the clock reading of the latest call that was let through. A call at a
    time [now] with [now - t < delay] returns [None] and leaves the closure
    and the state of the wrapped function as they were: the function is not
    called. A call with [now - t >= delay] calls the wrapped function on
    its arguments, records [now] as [last_call], and returns what the
    function returns, or raises what it raises. *)
Theorem C5_debounce_gate
    (W A R : Type) (delay : float) (func : A -> M W R)
    (cs : list (float * A)) (w : W) (rs : list (result (option R)))
    (c : Debounced W) (t now0 : float) (args : A) :
  calls delay func cs (decorator w) = (rs, c) ->
  last_executed cs rs None = Some t ->
  (PrimFloat.ltb (PrimFloat.sub now0 t) delay = true ->
   wrapper delay func now0 args c = (Ok None, c)) /\
  (PrimFloat.leb delay (PrimFloat.sub now0 t) = true ->
   wrapper delay func now0 args c =
   match func args (inner c) with
   | (Ok r, w') => (Ok (Some r), {| last_call := now0; inner := w' |})
   | (Raised e, w') => (Raised e, {| last_call := now0; inner := w' |})
   end).
Proof.
  intros H L.
  assert (E : last_call c = t).
  { apply (last_call_is_last_executed W A R delay func cs (decorator w) c rs None H);
      [discriminate | exact L]. }
  subst t. split.
  - apply wrapper_suppresses.
  - apply wrapper_lets_through.
Qed.

Lemma C5_debounce_gate_witness :
  let func := fun (_ : unit) (n : nat) => (Ok n, S n) in
  let c := {| last_call := 10%float; inner := 1 |} in
  calls 1%float func [(10%float, tt)] (decorator 0) = ([Ok (Some 0)], c) /\
  wrapper 1%float func 10.5%float tt c = (Ok None, c) /\
  wrapper 1%float func 11%float tt c
  = (Ok (Some 1), {| last_call := 11%float; inner := 2 |}).
Proof.
  intros func c. split; [reflexivity|]. split.
  - exact (proj1 (C5_debounce_gate nat unit nat 1%float func [(10%float, tt)] 0
                    [Ok (Some 0)] c 10%float 10.5%float tt eq_refl eq_refl) eq_refl).
  - exact (proj2 (C5_debounce_gate nat unit nat 1%float func [(10%float, tt)] 0
                    [Ok (Some 0)] c 10%float 11%float tt eq_refl eq_refl) eq_refl).
Defined.

(** * Further properties of the module *)

(** ** The email check *)

Lemma count_at_plain (w : str) :
  Forall plain w -> count_occ N.eq_dec w 64%N = 0.
Proof.
  induction 1 as [|c w [_ Hc] _ IH]; simpl; [reflexivity|].
  destruct (N.eq_dec c 64); [contradiction | exact IH].
Qed.

Lemma part_length (w : str) : part w -> 1 <= length w.
Proof. intros [Hne _]. destruct w; [congruence | simpl; lia]. Qed.

Lemma count_at_well_formed (s : str) :
  well_formed s -> count_occ N.eq_dec s 64%N = 1 /\ 5 <= length s.
Proof.
  intros (l & d & t & Hl & Hd & Ht & ->).
  pose proof (part_length l Hl). pose proof (part_length d Hd).
  pose proof (part_length t Ht).
  destruct Hl as [_ Hl], Hd as [_ Hd], Ht as [_ Ht]. split.
  - rewrite !count_occ_app. unfold char in *.
    rewrite (count_at_plain l Hl), (count_at_plain d Hd), (count_at_plain t Ht).
    reflexivity.
  - rewrite !length_app. unfold str, char in *. simpl. lia.
Qed.

Lemma no_space_well_formed (s : str) :
  well_formed s -> Forall (fun c => isspace c = false) s.
Proof.
  intros (l & d & t & [_ Hl] & [_ Hd] & [_ Ht] & ->).
  assert (P : forall w, Forall plain w -> Forall (fun c => isspace c = false) w).
  { intros w H. eapply Forall_impl; [|exact H]. intros c [Hc _]. exact Hc. }
  repeat (apply Forall_app; split); auto; repeat constructor.
Qed.

(** X1: the check accepts a string exactly when it is one or more plain
    characters, an [@], one or more plain characters, a dot and one or more
    plain characters, possibly followed by one newline; and it rejects a
    string exactly when it has neither form. *)
Theorem X1_valid_email_characterised (s : str) :
  (_is_valid_email s = true <->
   well_formed s \/ exists s', well_formed s' /\ s = s' ++ [10%N]) /\
  (_is_valid_email s = false <->
   ((well_formed s -> False) /\
    forall s', well_formed s' -> s = s' ++ [10%N] -> False)).
Proof.
  pose proof (is_valid_email_iff s) as I. split; [exact I|].
  destruct (_is_valid_email s); split.
  - discriminate.
  - intros [H1 H2]. exfalso.
    destruct (proj1 I eq_refl) as [W | (s' & W & E)]; [exact (H1 W) | exact (H2 s' W E)].
  - intros _. split.
    + intros W. assert (false = true) by (apply I; now left). discriminate.
    + intros s' W E. assert (false = true) by (apply I; right; now exists s').
      discriminate.
  - reflexivity.
Qed.

(** X2: an email that the check accepts has exactly one [@] and at least
    five characters. *)
Theorem X2_valid_email_one_at (s : str) :
  _is_valid_email s = true ->
  count_occ N.eq_dec s 64%N = 1 /\ 5 <= length s.
Proof.
  intros V. apply is_valid_email_iff in V.
  destruct V as [W | (s' & W & ->)].
  - now apply count_at_well_formed.
  - destruct (count_at_well_formed s' W) as [C L].
    rewrite count_occ_app, length_app. unfold str, char in *. rewrite C. simpl.
    split; [reflexivity | lia].
Qed.

Lemma X2_valid_email_one_at_witness :
  count_occ N.eq_dec (lit "bob@example.com") 64%N = 1 /\
  5 <= length (lit "bob@example.com").
Proof. exact (X2_valid_email_one_at (lit "bob@example.com") eq_refl). Defined.

(** X3: the only white space an accepted email can hold is one newline at
    its very end. *)
Theorem X3_valid_email_white_space (s : str) :
  _is_valid_email s = true ->
  exists body,
    (s = body \/ s = body ++ [10%N]) /\
    Forall (fun c => isspace c = false) body.
Proof.
  intros V. apply is_valid_email_iff in V.
  destruct V as [W | (s' & W & ->)].
  - exists s. split; [now left | now apply no_space_well_formed].
  - exists s'. split; [now right | now apply no_space_well_formed].
Qed.

Lemma X3_valid_email_white_space_witness :
  exists body,
    (lit "a@b.c" ++ [10%N] = body \/ lit "a@b.c" ++ [10%N] = body ++ [10%N]) /\
    Forall (fun c => isspace c = false) body.
Proof. exact (X3_valid_email_white_space (lit "a@b.c" ++ [10%N]) eq_refl). Defined.

(** X4: the constructor raises [ValueError], with the message
    ["Invalid email: "] followed by the email, for every email that is
    neither of the well-formed shape nor such a string followed by one
    newline; no [User] is returned. *)
Theorem X4_malformed_email_rejected
    (now0 : datetime) (i : Z) (n e : str) (r : option UserRole)
    (m : option (Dict.t str any)) (c : option datetime) :
  (well_formed e -> False) ->
  (forall s', well_formed s' -> e = s' ++ [10%N] -> False) ->
  User__init__ now0 i n e r m c = Raised (ValueError (lit "Invalid email: " ++ e)).
Proof.
  intros H1 H2. apply User__init__invalid.
  destruct (_is_valid_email e) eqn:V; [|reflexivity].
  apply is_valid_email_iff in V. destruct V as [W | (s' & W & E)].
  - destruct (H1 W).
  - destruct (H2 s' W E).
Qed.

Lemma not_valid_not_well_formed (e : str) :
  _is_valid_email e = false ->
  (well_formed e -> False) /\
  (forall s', well_formed s' -> e = s' ++ [10%N] -> False).
Proof.
  intros V. split.
  - intros W. assert (T : _is_valid_email e = true) by (apply is_valid_email_iff; now left).
    congruence.
  - intros s' W E.
    assert (T : _is_valid_email e = true)
      by (apply is_valid_email_iff; right; now exists s').
    congruence.
Qed.

Lemma X4_malformed_email_rejected_witness :
  User__init__ (mkDatetime 2024 1 2 3 4 5 6) 1 (lit "Eve") (lit "eve at example.com")
    None None None
  = Raised (ValueError (lit "Invalid email: eve at example.com")).
Proof.
  exact (X4_malformed_email_rejected (mkDatetime 2024 1 2 3 4 5 6) 1 (lit "Eve")
           (lit "eve at example.com") None None None
           (proj1 (not_valid_not_well_formed (lit "eve at example.com") eq_refl))
           (proj2 (not_valid_not_well_formed (lit "eve at example.com") eq_refl))).
Defined.

(** ** The cache of [BaseService] *)

(** X5: on any service, after [_set_cache(i, item)] a lookup of [i] finds
    [item] and every other identifier is looked up as before, the endpoint
    is unchanged; and a service just constructed finds nothing. *)
Theorem X5_cache_round_trip (T : Type) (self : BaseService T) (i : Z) (item : T) :
  BaseService_get_cache (BaseService_set_cache self i item) i = Some item /\
  (forall j, j <> i ->
     BaseService_get_cache (BaseService_set_cache self i item) j
     = BaseService_get_cache self j) /\
  endpoint (BaseService_set_cache self i item) = endpoint self /\
  (forall ep j, BaseService_get_cache (BaseService__init__ T ep) j = None).
Proof.
  unfold BaseService_get_cache, BaseService_set_cache. simpl.
  split; [apply get_set_same, Zeqb_eq|].
  split; [intros j Hj; apply get_set_other; [apply Zeqb_eq | exact Hj]|].
  split; reflexivity.
Qed.

(** ** [fetch_by_id] *)

(** X6: for every identifier that renders, negative ones too, when it is
    not cached and the simulated delay completes, [fetch_by_id] constructs one new user
    with that identifier, the name ["User <id>"], the email
    ["user<id>@example.com"], the role [USER] and the clock's reading,
    returns it and caches it under the identifier, leaving every other
    entry as it was: the made-up email always passes the check. *)
Theorem X6_fetch_miss_constructs (env : Env) (i : Z) (w : World) :
  renders i ->
  Dict.get Z.eqb (cache w) i = None ->
  sleep env = Completes ->
  exists u w',
    fetch_by_id env i w = (Ok (Some u), w') /\
    fields u = {| id := i; name := lit "User " ++ str_of_int i;
                  email := lit "user" ++ str_of_int i ++ lit "@example.com";
                  role := USER; metadata := Dict.empty str any;
                  created_at := now env |} /\
    addr u = objects w /\
    objects w' = S (objects w) /\
    Dict.get Z.eqb (cache w') i = Some u /\
    (forall j, j <> i -> Dict.get Z.eqb (cache w') j = Dict.get Z.eqb (cache w) j) /\
    stdout w' = stdout w ++ [Calling "fetch_by_id" (SInt i);
                             Returned "fetch_by_id" (SUser u)].
Proof.
  intros _ G Hs. unfold fetch_by_id. rewrite logged_run.
  rewrite fetch_wrapped_miss_completes by (try exact G; exact Hs).
  cbv zeta. do 2 eexists. split; [reflexivity|].
  split; [reflexivity|]. split; [reflexivity|]. split; [reflexivity|].
  split; [|split].
  - exact (get_set_same Z UserObj Z.eqb Zeqb_eq (cache w) i _).
  - intros j Hj. exact (get_set_other Z UserObj Z.eqb Zeqb_eq (cache w) i _ j Hj).
  - simpl. rewrite <- app_assoc. reflexivity.
Qed.

Lemma X6_fetch_miss_constructs_witness :
  let env := {| now := mkDatetime 2024 1 2 3 4 5 6; sleep := Completes |} in
  renders (-5) /\
  exists u w',
    fetch_by_id env (-5) fresh = (Ok (Some u), w') /\
    email (fields u) = lit "user-5@example.com" /\
    Dict.get Z.eqb (cache w') (-5)%Z = Some u.
Proof.
  intros env.
  assert (B : renders (-5)) by (unfold renders, int_max_str_digits; simpl; lia).
  split; [exact B|].
  destruct (X6_fetch_miss_constructs env (-5) fresh B eq_refl eq_refl)
    as (u & w' & H & F & _ & _ & G & _).
  exists u, w'. split; [exact H|]. split; [rewrite F; reflexivity | exact G].
Defined.



(** ** [logged] *)


(** ** [create_user], [fetch_by_id] and [get_users_by_role] together *)

(** X9: a user that [create_user] returned is what [fetch_by_id] of its
    identifier returns next, whatever the event loop would do: the delay is
    not awaited, no object is constructed and the service is unchanged. *)
Theorem X9_create_then_fetch
    (now0 : datetime) (n e : str) (r : option UserRole) (env : Env) (w : World) :
  _is_valid_email e = true ->
  exists u w1 w2,
    create_user now0 n e r w = (Ok u, w1) /\
    fetch_by_id env (uid u) w1 = (Ok (Some u), w2) /\
    service w2 = service w1 /\
    objects w2 = objects w1.
Proof.
  intros V. rewrite (create_user_valid now0 n e r w V). cbv zeta.
  do 3 eexists. split; [reflexivity|].
  unfold fetch_by_id. rewrite logged_run.
  erewrite fetch_wrapped_hit.
  - split; [reflexivity|]. split; reflexivity.
  - exact (get_set_same Z UserObj Z.eqb Zeqb_eq (cache w) _ _).
Qed.

Lemma X9_create_then_fetch_witness :
  let env := {| now := mkDatetime 2024 1 2 3 4 5 6; sleep := Raises TimeoutError |} in
  exists u w1 w2,
    create_user (now env) (lit "Bob") (lit "bob@example.com") None fresh = (Ok u, w1) /\
    fetch_by_id env (uid u) w1 = (Ok (Some u), w2) /\
    objects w2 = objects w1.
Proof.
  intros env.
  destruct (X9_create_then_fetch (now env) (lit "Bob") (lit "bob@example.com") None
              env fresh eq_refl) as (u & w1 & w2 & H1 & H2 & _ & H3).
  exists u, w1, w2. auto.
Defined.

(** X10: on a fresh service on which only [create_user] was called,
    [get_users_by_role] returns the created users that have the role, in
    the order of their creation, and the cache has as many entries as
    users were created. *)
Theorem X10_created_users_by_role
    (reqs : list request) (us : list UserObj) (w' : World) (r : UserRole) :
  create_users reqs fresh = (us, w') ->
  get_users_by_role r w'
    = (Ok (filter (fun u => UserRole_eqb (role (fields u)) r) us), w') /\
  Dict.len (cache w') = Z.of_nat (length us).
Proof.
  intros H.
  destruct (create_users_from reqs fresh 0 eq_refl us w' H) as [_ I].
  simpl in I. split.
  - unfold get_users_by_role. rewrite comprehension_filter, map_id, I.
    unfold Dict.values. rewrite map_map. simpl. now rewrite map_id.
  - unfold Dict.len. now rewrite I, length_map.
Qed.

Lemma X10_created_users_by_role_witness :
  let t := mkDatetime 2024 1 2 3 4 5 6 in
  let reqs := [ mkRequest t (lit "Alice") (lit "alice@example.com") (Some ADMIN);
                mkRequest t (lit "Mallory") (lit "mallory") None;
                mkRequest t (lit "Bob") (lit "bob@example.com") None;
                mkRequest t (lit "Carol") (lit "carol@example.com") (Some ADMIN) ] in
  exists us w',
    create_users reqs fresh = (us, w') /\
    map (fun u => name (fields u)) us = [lit "Alice"; lit "Bob"; lit "Carol"] /\
    exists admins,
      get_users_by_role ADMIN w' = (Ok admins, w') /\
      map (fun u => name (fields u)) admins = [lit "Alice"; lit "Carol"] /\
      Dict.len (cache w') = 3%Z.
Proof.
  intros t reqs.
  destruct (create_users reqs fresh) as [us w'] eqn:E.
  destruct (X10_created_users_by_role reqs us w' ADMIN E) as [G L].
  vm_compute in E. injection E as <- <-.
  do 2 eexists. split; [reflexivity|]. split; [reflexivity|].
  eexists. split; [exact G|]. split; [reflexivity | exact L].
Defined.

(** X11: the three roles split the cache: the lists that
    [get_users_by_role] returns for [ADMIN], [USER] and [GUEST] have
    together as many users as the cache has values, and no user is in two
    of them. *)
Theorem X11_roles_split_the_cache (w : World) :
  exists admins users guests,
    get_users_by_role ADMIN w = (Ok admins, w) /\
    get_users_by_role USER w = (Ok users, w) /\
    get_users_by_role GUEST w = (Ok guests, w) /\
    length admins + length users + length guests = length (Dict.values (cache w)) /\
    (forall u, In u admins -> In u users -> False) /\
    (forall u, In u admins -> In u guests -> False) /\
    (forall u, In u users -> In u guests -> False).
Proof.
  unfold get_users_by_role. rewrite !comprehension_filter, !map_id.
  do 3 eexists. split; [reflexivity|]. split; [reflexivity|]. split; [reflexivity|].
  split; [|repeat split].
  - induction (Dict.values (cache w)) as [|u l IH]; simpl; [reflexivity|].
    destruct (role (fields u)); simpl; lia.
  - intros u H1 H2. apply filter_In in H1, H2.
    destruct H1 as [_ H1], H2 as [_ H2]. destruct (role (fields u)); discriminate.
  - intros u H1 H2. apply filter_In in H1, H2.
    destruct H1 as [_ H1], H2 as [_ H2]. destruct (role (fields u)); discriminate.
  - intros u H1 H2. apply filter_In in H1, H2.
    destruct H1 as [_ H1], H2 as [_ H2]. destruct (role (fields u)); discriminate.
Qed.

(** ** [to_dict] *)

(** X12: [to_dict] does not export the metadata: two users that agree on
    identifier, name, email, role and creation time have the same
    dictionary; a key other than the five it writes is looked up as
    [None]; and the five keys are distinct. *)
Theorem X12_to_dict_leaves_metadata_out (u v : User) :
  (id u = id v -> name u = name v -> email u = email v -> role u = role v ->
   created_at u = created_at v -> to_dict u = to_dict v) /\
  (forall k,
     ~ In k [lit "id"; lit "name"; lit "email"; lit "role"; lit "created_at"] ->
     Dict.get str_eqb (to_dict u) k = None) /\
  Dict.get str_eqb (to_dict u) (lit "metadata") = None /\
  NoDup (Dict.keys (to_dict u)).
Proof.
  split; [|split; [|split]].
  - intros H1 H2 H3 H4 H5. unfold to_dict. now rewrite H1, H2, H3, H4, H5.
  - intros k Hk. apply get_None_iff; [|exact Hk].
    clear. intros a. induction a as [|x a IH]; intros [|y b]; simpl;
      try (split; [discriminate | discriminate]); [tauto|].
    rewrite andb_true_iff, N.eqb_eq, IH. split.
    + intros [-> ->]. reflexivity.
    + intros E. injection E as -> ->. auto.
  - reflexivity.
  - simpl. repeat constructor; simpl; intuition discriminate.
Qed.

Lemma X12_to_dict_leaves_metadata_out_witness :
  let t := mkDatetime 2024 1 2 3 4 5 6 in
  to_dict (mkUser 1 (lit "Alice") (lit "alice@example.com") ADMIN
             [(lit "team", AStr (lit "core"))] t)
  = to_dict (mkUser 1 (lit "Alice") (lit "alice@example.com") ADMIN [] t).
Proof.
  intros t.
  exact (proj1 (X12_to_dict_leaves_metadata_out
                  (mkUser 1 (lit "Alice") (lit "alice@example.com") ADMIN
                     [(lit "team", AStr (lit "core"))] t)
                  (mkUser 1 (lit "Alice") (lit "alice@example.com") ADMIN [] t))
           eq_refl eq_refl eq_refl eq_refl eq_refl).
Defined.

(** ** Runs of a debounced function *)

(** X13: which calls of a run reach the wrapped function is decided by the
    clock readings and the delay alone, whatever the function returns,
    raises or does to its state: the wrapper answers every call, and the
    state of the wrapped function at the end is the one it reaches when it
    is called, without the wrapper, on the arguments of the calls that the
    comparison [current_time - last_call >= delay] lets through, in their
    order. A suppressed call leaves no trace. *)
Theorem X13_debounce_runs_only_let_through
    (W A R : Type) (delay : float) (func : A -> M W R)
    (cs : list (float * A)) (c c' : Debounced W) (rs : list (result (option R))) :
  calls delay func cs c = (rs, c') ->
  length rs = length cs /\
  inner c' = run_func func (let_through delay cs (last_call c)) (inner c).
Proof.
  revert c c' rs.
  induction cs as [|[t a] cs IH]; intros c c' rs H; simpl in H.
  - injection H as <- <-. split; reflexivity.
  - destruct (wrapper delay func t a c) as [r c1] eqn:Hw.
    destruct (calls delay func cs c1) as [rs1 c2] eqn:Hc.
    injection H as <- <-.
    destruct (IH c1 c2 rs1 Hc) as [L I]. split; [simpl; now rewrite L|].
    unfold wrapper in Hw. simpl.
    destruct (PrimFloat.leb delay (PrimFloat.sub t (last_call c))).
    + destruct (func a (inner c)) as [[r0|e] w1] eqn:F; injection Hw as <- <-;
        simpl in I; rewrite I; unfold run_func; simpl; now rewrite F.
    + injection Hw as <- <-. exact I.
Qed.

Lemma X13_debounce_runs_only_let_through_witness :
  let func := fun (k : nat) (n : nat) => (@Ok nat n, n + k) in
  exists rs c',
    calls 1%float func [(10%float, 1); (10.5%float, 10); (12%float, 100)] (decorator 0)
      = (rs, c') /\
    let_through 1%float [(10%float, 1); (10.5%float, 10); (12%float, 100)] 0%float
      = [1; 100] /\
    inner c' = 101.
Proof.
  intros func.
  destruct (X13_debounce_runs_only_let_through nat nat nat 1%float func
              [(10%float, 1); (10.5%float, 10); (12%float, 100)] (decorator 0)
              {| last_call := 12%float; inner := 101 |}
              [Ok (Some 0); Ok None; Ok (Some 1)] eq_refl) as [_ I].
  do 2 eexists. split; [reflexivity|]. split; [reflexivity | exact I].
Defined.

Lemma leb_nan_l (x y : float) : PrimFloat.is_nan x = true -> PrimFloat.leb x y = false.
Proof.
  intros H. rewrite leb_spec. unfold Prim2SF at 1. rewrite H. reflexivity.
Qed.

(** X14: when the delay is not a number, the comparison never holds: every
    call of every run returns [None], and neither the closure nor the state
    of the wrapped function changes. *)
Theorem X14_debounce_nan_delay
    (W A R : Type) (delay : float) (func : A -> M W R)
    (cs : list (float * A)) (c : Debounced W) :
  PrimFloat.is_nan delay = true ->
  calls delay func cs c = (map (fun _ => Ok None) cs, c).
Proof.
  intros H. induction cs as [|[t a] cs IH]; simpl; [reflexivity|].
  unfold wrapper at 1. rewrite (leb_nan_l delay _ H). now rewrite IH.
Qed.

Lemma X14_debounce_nan_delay_witness :
  let func := fun (k : nat) (n : nat) => (Ok n, n + k) in
  calls PrimFloat.nan func [(10%float, 1); (1000%float, 10)] (decorator 0)
  = ([Ok None; Ok None], decorator 0).
Proof.
  intros func.
  exact (X14_debounce_nan_delay nat nat nat PrimFloat.nan func
           [(10%float, 1); (1000%float, 10)] (decorator 0) eq_refl).
Defined.

(** X15: the time of a call is recorded before the wrapped function runs:
    when a call is let through and the function raises, the wrapper raises
    the same exception, [last_call] is the time of that call and the
    function's state changes are kept; so a call less than [delay] after
    it is suppressed. *)
Theorem X15_debounce_records_raising_call
    (W A R : Type) (delay : float) (func : A -> M W R)
    (c : Debounced W) (now0 : float) (args : A) (e : exn) (w' : W) :
  PrimFloat.leb delay (PrimFloat.sub now0 (last_call c)) = true ->
  func args (inner c) = (Raised e, w') ->
  wrapper delay func now0 args c
    = (Raised e, {| last_call := now0; inner := w' |}) /\
  (forall (now1 : float) (args1 : A),
     PrimFloat.ltb (PrimFloat.sub now1 now0) delay = true ->
     wrapper delay func now1 args1 {| last_call := now0; inner := w' |}
     = (Ok None, {| last_call := now0; inner := w' |})).
Proof.
  intros G F. split.
  - rewrite wrapper_lets_through by exact G. now rewrite F.
  - intros now1 args1 L. apply wrapper_suppresses. exact L.
Qed.

Lemma X15_debounce_records_raising_call_witness :
  let func := fun (_ : unit) (n : nat) => (@Raised nat (OtherException (lit "down")), S n) in
  wrapper 1%float func 10%float tt (decorator 0)
    = (Raised (OtherException (lit "down")), {| last_call := 10%float; inner := 1 |}) /\
  wrapper 1%float func 10.5%float tt {| last_call := 10%float; inner := 1 |}
    = (Ok None, {| last_call := 10%float; inner := 1 |}).
Proof.
  intros func.
  destruct (X15_debounce_records_raising_call nat unit nat 1%float func (decorator 0)
              10%float tt (OtherException (lit "down")) 1 eq_refl eq_refl) as [H1 H2].
  split; [exact H1 | exact (H2 10.5%float tt eq_refl)].
Defined.

(** ** [DatabaseConnection] as a scope *)

(** X16: in [async with], a body that returns gives its value after the
    closing line; when entering raises, after the connecting line, the
    body does not run and nothing is closed; and the statement never ends
    with a dropped exception. *)
Theorem X16_connection_scope
    (S A : Type) (C : Console S) (self : DatabaseConnection)
    (body : DatabaseConnection -> M S A) (s : S) :
  (forall (a : A) (s1 : S),
     body self (write (Text (lit "Connecting to " ++ connection_string self)) s)
       = (Ok a, s1) ->
     async_with self Completes body s
     = (Ok (Some a), write (Text (lit "Closing database connection")) s1)) /\
  (forall e : exn,
     async_with self (Raises e) body s
     = (Raised e, write (Text (lit "Connecting to " ++ connection_string self)) s)) /\
  (forall (o : outcome) (s' : S), async_with self o body s = (Ok None, s') -> False).
Proof.
  split; [|split].
  - intros a s1 H. unfold async_with, bind.
    change (__aenter__ self Completes s)
      with (Ok self, write (Text (lit "Connecting to " ++ connection_string self)) s).
    cbv beta iota. rewrite H. reflexivity.
  - intros e. reflexivity.
  - intros o s' H. unfold async_with, bind in H. destruct o as [|e].
    + change (__aenter__ self Completes s)
        with (Ok self, write (Text (lit "Connecting to " ++ connection_string self)) s)
        in H.
      cbv beta iota in H.
      destruct (body self _) as [[a|e] s1]; discriminate.
    + discriminate.
Qed.

Lemma X16_connection_scope_witness :
  async_with (DatabaseConnection__init__ (lit "db://x")) Completes
    (fun cm => ret (connection_string cm)) ([] : list line)
  = (Ok (Some (lit "db://x")),
     [Text (lit "Connecting to db://x"); Text (lit "Closing database connection")]).
Proof.
  exact (proj1 (X16_connection_scope (list line) str Console_lines
                  (DatabaseConnection__init__ (lit "db://x"))
                  (fun cm => ret (connection_string cm)) [])
           (lit "db://x") _ eq_refl).
Defined.

(** ** [main] *)

(** X17: [main] returns for every clock, every behaviour of the event loop
    and every state of the console: its call of [fetch_by_id] finds user 1
    in the cache, so the simulated delay is not awaited. At the end the
    new service caches Alice, Bob and Charlie under 1, 2 and 3 with the
    roles [ADMIN], [USER] and [GUEST], three objects were constructed, and
    six lines were printed: the two of [logged], then the dictionary of
    Alice, the list of the administrators' names, the map of the
    identifiers to the names, and the total with the word [many]. *)
Theorem X17_main_runs
    (repr_str : str -> str) (c1 c2 c3 : datetime) (env : Env) (w : World) :
  let user i n e r c :=
    {| addr := i + objects w;
       fields := {| id := Z.of_nat (S i); name := lit n; email := lit e; role := r;
                    metadata := Dict.empty str any; created_at := c |} |} in
  let alice := user 0 "Alice"%string "alice@example.com"%string ADMIN c1 in
  let bob := user 1 "Bob"%string "bob@example.com"%string USER c2 in
  let charlie := user 2 "Charlie"%string "charlie@example.com"%string GUEST c3 in
  exists w',
    main repr_str c1 c2 c3 env w = (Ok tt, w') /\
    cache w' = [(1%Z, alice); (2%Z, bob); (3%Z, charlie)] /\
    objects w' = 3 + objects w /\
    stdout w' =
      stdout w ++
      [ Calling "fetch_by_id" (SInt 1);
        Returned "fetch_by_id" (SUser alice);
        Text (lit "Fetched: " ++ repr_dict repr_str (repr_any repr_str)
                                   (to_dict (fields alice)));
        Text (lit "Admins: " ++ repr_list repr_str [lit "Alice"]);
        Text (lit "User map: "
                ++ repr_dict str_of_int repr_str
                     [(1%Z, lit "Alice"); (2%Z, lit "Bob"); (3%Z, lit "Charlie")]);
        Text (lit "Total users: 3 (many)") ].
Proof.
  intros user alice bob charlie.
  pose (world d n out :=
          {| service := {| super := {| endpoint := lit "/users"; _cache := d |};
                           _session := None |};
             stdout := out; objects := n + objects w |}).
  assert (E1 : create_user c1 (lit "Alice") (lit "alice@example.com") (Some ADMIN)
                 (world [] 0 (stdout w))
               = (Ok alice, world [(1%Z, alice)] 1 (stdout w))).
  { rewrite create_user_valid by reflexivity. reflexivity. }
  assert (E2 : create_user c2 (lit "Bob") (lit "bob@example.com") None
                 (world [(1%Z, alice)] 1 (stdout w))
               = (Ok bob, world [(1%Z, alice); (2%Z, bob)] 2 (stdout w))).
  { rewrite create_user_valid by reflexivity. reflexivity. }
  assert (E3 : create_user c3 (lit "Charlie") (lit "charlie@example.com") (Some GUEST)
                 (world [(1%Z, alice); (2%Z, bob)] 2 (stdout w))
               = (Ok charlie, world [(1%Z, alice); (2%Z, bob); (3%Z, charlie)] 3 (stdout w))).
  { rewrite create_user_valid by reflexivity. reflexivity. }
  assert (E4 : fetch_by_id env 1 (world [(1%Z, alice); (2%Z, bob); (3%Z, charlie)] 3 (stdout w))
               = (Ok (Some alice),
                  world [(1%Z, alice); (2%Z, bob); (3%Z, charlie)] 3
                    (stdout w ++ [Calling "fetch_by_id" (SInt 1);
                                  Returned "fetch_by_id" (SUser alice)]))).
  { unfold fetch_by_id. rewrite logged_run.
    rewrite fetch_wrapped_hit with (u := alice) by reflexivity.
    unfold world. simpl. rewrite <- app_assoc. reflexivity. }
  exists (world [(1%Z, alice); (2%Z, bob); (3%Z, charlie)] 3
            (stdout w ++
             [ Calling "fetch_by_id" (SInt 1);
               Returned "fetch_by_id" (SUser alice);
               Text (lit "Fetched: " ++ repr_dict repr_str (repr_any repr_str)
                                          (to_dict (fields alice)));
               Text (lit "Admins: " ++ repr_list repr_str [lit "Alice"]);
               Text (lit "User map: "
                       ++ repr_dict str_of_int repr_str
                            [(1%Z, lit "Alice"); (2%Z, lit "Bob"); (3%Z, lit "Charlie")]);
               Text (lit "Total users: 3 (many)") ])).
  split; [|repeat split].
  unfold main.
  unfold bind at 1. unfold new_service.
  change {| service := UserService__init__; stdout := stdout w; objects := objects w |}
    with (world [] 0 (stdout w)).
  unfold bind at 1. rewrite E1.
  unfold bind at 1. rewrite E2.
  unfold bind at 1. rewrite E3.
  unfold bind at 1. rewrite E4.
  unfold bind, print, ret. cbv beta iota. unfold world.
  cbn [write Console_World stdout service objects].
  rewrite <- !app_assoc. reflexivity.
Qed.
